(** * Prompt-to-SQL: a shallow embedding of [main.py]

    The development follows the class [PromptToSQLConverter]:
    the model selector, the schema introspector, the completion client with
    its response clean-up, the query executor and the result formatter.

    Python [str] values are sequences of Unicode code points; they are
    modelled as lists of code points, so that [len], slicing and the
    index returned by [find] count what Python counts. *)

From Stdlib Require Import NArith ZArith Ascii String Lia DecimalString.
From stdpp Require Import base list.

Set Warnings "-register-all".
Local Open Scope N_scope.
Local Open Scope list_scope.

(** ** Part I. Definitions *)

(** *** Python strings *)

Module PyStr.

Definition code_point := N.
Definition str := list code_point.

(** [py "..."] reads an ASCII literal as a Python string. *)
Fixpoint py (s : string) : str :=
  match s with
  | EmptyString => []
  | String a s' => N_of_ascii a :: py s'
  end.

Definition eq_str (a b : str) : bool := bool_decide (a = b).

(** Code points for which [str.isspace] holds; [str.strip()] without an
    argument removes exactly these. *)
Definition is_space (c : code_point) : bool :=
  ((9 <=? c) && (c <=? 13)) || ((28 <=? c) && (c <=? 32))
  || (c =? 133) || (c =? 160) || (c =? 5760)
  || ((8192 <=? c) && (c <=? 8202))
  || (c =? 8232) || (c =? 8233) || (c =? 8239) || (c =? 8287)
  || (c =? 12288).

Definition mem_char (chars : str) (c : code_point) : bool :=
  existsb (N.eqb c) chars.

(** [lstrip], [rstrip] and [strip], for a set of characters to drop. *)
Fixpoint lstrip_by (p : code_point -> bool) (s : str) : str :=
  match s with
  | [] => []
  | c :: s' => if p c then lstrip_by p s' else s
  end.

Definition rstrip_by (p : code_point -> bool) (s : str) : str :=
  rev (lstrip_by p (rev s)).

Definition strip_by (p : code_point -> bool) (s : str) : str :=
  rstrip_by p (lstrip_by p s).

Definition strip (s : str) : str := strip_by is_space s.
Definition strip_chars (chars s : str) : str := strip_by (mem_char chars) s.
Definition rstrip_chars (chars s : str) : str := rstrip_by (mem_char chars) s.

(** Whether the first, or the last, character of [s] is one that [p]
    accepts. *)
Definition starts_by (p : code_point -> bool) (s : str) : bool :=
  match s with
  | c :: _ => p c
  | [] => false
  end.

Definition ends_by (p : code_point -> bool) (s : str) : bool :=
  starts_by p (rev s).

(** [x] is a contiguous part of [s]. *)
Definition segment_of (x s : str) : Prop := exists a b, s = a ++ x ++ b.

(** [s.startswith(p)] *)
Fixpoint startswith (p s : str) : bool :=
  match p, s with
  | [], _ => true
  | _ :: _, [] => false
  | a :: p', b :: s' => (a =? b) && startswith p' s'
  end.

(** [s.find(p)]: the lowest index at which [p] occurs in [s], or [-1]. *)
Fixpoint find (p s : str) : Z :=
  if startswith p s then 0%Z
  else match s with
       | [] => (-1)%Z
       | _ :: s' => let i := find p s' in
                    if (i <? 0)%Z then (-1)%Z else (i + 1)%Z
       end.

(** [p in s] for strings: substring test. *)
Fixpoint contains (p s : str) : bool :=
  startswith p s ||
  match s with
  | [] => false
  | _ :: s' => contains p s'
  end.

(** [s[i:]], with Python's treatment of a negative or too large index. *)
Definition slice_from (i : Z) (s : str) : str :=
  let n := Z.of_nat (length s) in
  let start := if (i <? 0)%Z then Z.max 0 (n + i) else i in
  drop (Z.to_nat start) s.

(** [s.replace(old, new)] for a non-empty [old]: occurrences are replaced
    from the left and do not overlap.  [skip] counts the characters of the
    occurrence just matched that are still to be passed over. *)
Fixpoint replace_from (old new : str) (skip : nat) (s : str) : str :=
  match s with
  | [] => []
  | c :: s' =>
      match skip with
      | S k => replace_from old new k s'
      | O => if startswith old s
             then new ++ replace_from old new (length old - 1) s'
             else c :: replace_from old new 0 s'
      end
  end.

Definition replace (old new s : str) : str := replace_from old new 0 s.

(** [s.ljust(w)] pads with spaces on the right up to width [w]. *)
Definition ljust (w : nat) (s : str) : str :=
  s ++ repeat 32 (w - length s).

(** [sep.join(parts)] *)
Fixpoint join (sep : str) (parts : list str) : str :=
  match parts with
  | [] => []
  | [p] => p
  | p :: rest => p ++ sep ++ join sep rest
  end.

(** [str(n)] for an integer. *)
Definition str_of_Z (z : Z) : str := py (NilZero.string_of_int (Z.to_int z)).

Definition ascii_upper (c : code_point) : code_point :=
  if (97 <=? c) && (c <=? 122) then c - 32 else c.

(** The full uppercase mapping of Unicode, which [str.upper] applies to each
    code point on its own, tabulated for U+0000..U+00FF (Basic Latin and
    Latin-1 Supplement).  Note U+00DF, whose uppercase is two letters. *)
Definition latin1_to_upper (c : code_point) : str :=
  if (97 <=? c) && (c <=? 122) then [c - 32]
  else if c =? 181 then [924]
  else if c =? 223 then [83; 83]
  else if (224 <=? c) && (c <=? 254) && negb (c =? 247) then [c - 32]
  else if c =? 255 then [376]
  else [c].

Section Upper.
(** The case mapping table is the interpreter's, not the program's: the
    functions that call [upper] take it as a parameter. *)
Variable to_upper_full : code_point -> str.

Definition upper (s : str) : str := flat_map to_upper_full s.

(** Texts in which the uppercase of every character is one character,
    the one ASCII gives: lower-case ASCII letters are the only cased
    characters.  ASCII texts are of this kind. *)
Definition plain_case (s : str) : Prop :=
  Forall (fun c => to_upper_full c = [ascii_upper c]) s.
End Upper.

End PyStr.

Import PyStr.

(** *** The response clean-up of [generate_sql_query] *)

Module Sanitizer.

Definition fence_sql : str := py "```sql".
Definition fence : str := py "```".
Definition quote_chars : str := [34; 39].
Definition semicolon : str := py ";".
Definition SELECT : str := py "SELECT".

(** [sql_query.replace('```sql', '').replace('```', '').strip()] *)
Definition remove_fences (s : str) : str :=
  strip (replace fence [] (replace fence_sql [] s)).

(** [sql_query.strip(chars)], where [chars] holds the double and the single
    quote character. *)
Definition strip_quotes (s : str) : str := strip_chars quote_chars s.

(** [sql_query.rstrip(';').strip()] *)
Definition remove_semicolon_at_end (s : str) : str :=
  strip (rstrip_chars semicolon s).

Section WithCaseMapping.
Variable to_upper_full : code_point -> str.

(** [if 'SELECT' in sql_query.upper(): ...] *)
Definition remove_text_before_select (s : str) : str :=
  if contains SELECT (upper to_upper_full s)
  then let select_index := find SELECT (upper to_upper_full s) in
       slice_from select_index s
  else s.

(** Lines 158 to 169: the clean-up applied to the candidate text. *)
Definition sanitize (sql_query : str) : str :=
  let sql_query := remove_fences sql_query in
  let sql_query := strip_quotes sql_query in
  let sql_query := remove_text_before_select sql_query in
  let sql_query := remove_semicolon_at_end sql_query in
  sql_query.
End WithCaseMapping.

End Sanitizer.

Import Sanitizer.

(** *** Exceptions and parsed JSON *)

Module Py.

(** The classes of exception the program can meet.  All of them derive from
    [Exception]; the first is [requests.exceptions.RequestException] and the
    second [mysql.connector.Error], the rest are raised by the interpreter. *)
Inductive exn_class :=
| RequestException | DatabaseError
| KeyError | TypeError | AttributeError | IndexError | ValueError
| OtherException.

(** An exception: its class and what raised it.  How [str(e)] words it is
    the interpreter's business (the parameter [exn_str] below). *)
Record exn := Exn { exn_class_of : exn_class; exn_origin : str }.

Inductive outcome (A : Type) :=
| Returns (a : A)
| Raises (e : exn).
Arguments Returns {A} a.
Arguments Raises {A} e.

(** Sequencing: an exception raised by [m] ends the computation. *)
Definition bind {A B} (m : outcome A) (k : A -> outcome B) : outcome B :=
  match m with
  | Returns a => k a
  | Raises e => Raises e
  end.

Module Notations.
Notation "x <- m ;; k" := (bind m (fun x => k))
  (at level 100, m at next level, right associativity).
End Notations.
Import Notations.

(** [try: body except cls as e: handler e] *)
Definition try_except {A} (body : outcome A) (catches : exn -> bool)
    (handler : exn -> outcome A) : outcome A :=
  match body with
  | Returns a => Returns a
  | Raises e => if catches e then handler e else Raises e
  end.

(** [except Exception] catches every class above. *)
Definition is_Exception (e : exn) : bool := true.

Definition is_RequestException (e : exn) : bool :=
  match exn_class_of e with RequestException => true | _ => false end.

Definition is_DatabaseError (e : exn) : bool :=
  match exn_class_of e with DatabaseError => true | _ => false end.

(** A value produced by [response.json()].  [JObj] lists the items of the
    dict, whose keys are distinct; numbers raise the same errors whatever
    their value. *)
Inductive json :=
| JNull
| JBool (b : bool)
| JNum (z : Z)
| JStr (s : str)
| JArr (items : list json)
| JObj (fields : list (str * json)).

Fixpoint dict_lookup (k : str) (fields : list (str * json)) : option json :=
  match fields with
  | [] => None
  | (k', v) :: rest => if eq_str k k' then Some v else dict_lookup k rest
  end.

Definition is_JStr (k : str) (v : json) : bool :=
  match v with JStr s => eq_str k s | _ => false end.

(** ['k' in v] *)
Definition py_in (k : str) (v : json) : outcome bool :=
  match v with
  | JObj fields => Returns (bool_decide (is_Some (dict_lookup k fields)))
  | JArr items => Returns (existsb (is_JStr k) items)
  | JStr s => Returns (contains k s)
  | _ => Raises (Exn TypeError (py "in"))
  end.

(** [v['k']] *)
Definition getitem_key (v : json) (k : str) : outcome json :=
  match v with
  | JObj fields =>
      match dict_lookup k fields with
      | Some x => Returns x
      | None => Raises (Exn KeyError k)
      end
  | _ => Raises (Exn TypeError (py "getitem"))
  end.

(** [v[0]] *)
Definition getitem_0 (v : json) : outcome json :=
  match v with
  | JArr (x :: _) => Returns x
  | JArr [] => Raises (Exn IndexError (py "getitem"))
  | JStr (c :: _) => Returns (JStr [c])
  | JStr [] => Raises (Exn IndexError (py "getitem"))
  | JObj _ => Raises (Exn KeyError (py "0"))
  | _ => Raises (Exn TypeError (py "getitem"))
  end.

(** [len(v)] *)
Definition py_len (v : json) : outcome nat :=
  match v with
  | JArr items => Returns (length items)
  | JStr s => Returns (length s)
  | JObj fields => Returns (length fields)
  | _ => Raises (Exn TypeError (py "len"))
  end.

(** [for x in v]: the values the loop visits. *)
Definition py_iter (v : json) : outcome (list json) :=
  match v with
  | JArr items => Returns items
  | JObj fields => Returns (map (fun kv => JStr (fst kv)) fields)
  | JStr s => Returns (map (fun c => JStr [c]) s)
  | _ => Raises (Exn TypeError (py "iter"))
  end.

(** [v.get('k', dflt)] *)
Definition py_get (v : json) (k : str) (dflt : json) : outcome json :=
  match v with
  | JObj fields => Returns (default dflt (dict_lookup k fields))
  | _ => Raises (Exn AttributeError (py "get"))
  end.

(** [v.replace(old, '')] *)
Definition py_replace (v : json) (old new : str) : outcome str :=
  match v with
  | JStr s => Returns (replace old new s)
  | _ => Raises (Exn AttributeError (py "replace"))
  end.

(** [v.strip()] *)
Definition py_strip (v : json) : outcome str :=
  match v with
  | JStr s => Returns (strip s)
  | _ => Raises (Exn AttributeError (py "strip"))
  end.

(** What [requests.get] / [requests.post] hand back: an exception, or a
    response with its status code, its text and what [.json()] gives. *)
Inductive http_result :=
| HttpRaised (e : exn)
| HttpResponse (status_code : Z) (text : str) (json_body : outcome json).

End Py.

Import Py.
Import Py.Notations.

(** *** [get_available_model] *)

Module ModelSelector.

Definition preferred_models : list str :=
  [ py "gemini-1.5-flash"; py "gemini-1.5-pro"; py "gemini-1.5-flash-latest";
    py "gemini-pro"; py "gemini-1.0-pro" ].

Definition default_model : str := py "gemini-1.5-flash".

Definition models_prefix : str := py "models/".

(** [model.get('name', '').replace('models/', '')] *)
Definition model_name_of (model : json) : outcome str :=
  name <- py_get model (py "name") (JStr []) ;;
  py_replace name models_prefix [].

(** The loop over [models_data['models']], lines 53 to 57. *)
Fixpoint collect_available (models : list json) (available_models : list str)
    : outcome (list str) :=
  match models with
  | [] => Returns available_models
  | model :: rest =>
      model_name <- model_name_of model ;;
      supported_methods <-
        py_get model (py "supportedGenerationMethods") (JArr []) ;;
      capable <- py_in (py "generateContent") supported_methods ;;
      collect_available rest
        (if capable then available_models ++ [model_name]
         else available_models)
  end.

(** The inner loop of lines 61 to 63. *)
Fixpoint first_containing (preferred : str) (available_models : list str)
    : option str :=
  match available_models with
  | [] => None
  | available :: rest =>
      if contains preferred available then Some available
      else first_containing preferred rest
  end.

(** The outer loop of lines 60 to 63. *)
Fixpoint find_preferred (preferred : list str) (available_models : list str)
    : option str :=
  match preferred with
  | [] => None
  | p :: rest =>
      match first_containing p available_models with
      | Some m => Some m
      | None => find_preferred rest available_models
      end
  end.

(** Lines 59 to 67, once [available_models] is built; [None] stands for
    leaving the [try] block without a [return]. *)
Definition select_model (available_models : list str) : option str :=
  match find_preferred preferred_models available_models with
  | Some m => Some m
  | None => head available_models
  end.

(** The body of the [try], lines 39 to 67. *)
Definition get_available_model_try (response : http_result) : outcome (option str) :=
  match response with
  | HttpRaised e => Raises e
  | HttpResponse status_code _ json_body =>
      if (status_code =? 200)%Z then
        models_data <- json_body ;;
        has_models <- py_in (py "models") models_data ;;
        if (has_models : bool) then
          models <- getitem_key models_data (py "models") ;;
          items <- py_iter models ;;
          available_models <- collect_available items [] ;;
          Returns (select_model available_models)
        else Returns None
      else Returns None
  end.

Definition get_available_model (response : http_result) : outcome str :=
  found <- try_except (get_available_model_try response) is_Exception
             (fun e => (* print the warning *) Returns None) ;;
  match found with
  | Some model => Returns model
  | None => Returns default_model
  end.

(** A well-formed catalog entry and the JSON the provider sends for it. *)
Record entry := Entry { entry_name : str; entry_methods : list str }.

Definition entry_json (e : entry) : json :=
  JObj [ (py "name", JStr (entry_name e));
         (py "supportedGenerationMethods",
          JArr (map JStr (entry_methods e))) ].

Definition catalog_response (entries : list entry) : http_result :=
  HttpResponse 200 []
    (Returns (JObj [(py "models", JArr (map entry_json entries))])).

(** What the loop of lines 53 to 57 keeps of a well-formed catalog. *)
Definition normalized_name (e : entry) : str :=
  replace models_prefix [] (entry_name e).

Definition capable (e : entry) : bool :=
  existsb (eq_str (py "generateContent")) (entry_methods e).

Definition available_of (entries : list entry) : list str :=
  map normalized_name (List.filter capable entries).

End ModelSelector.

Import ModelSelector.

(** *** [generate_sql_query] and the caller's test in [main] *)

Module Completion.

(** The five [return] statements of [generate_sql_query], named after the
    kind of result each one produces. *)
Inductive return_site :=
| ApiStatusError   (* line 147 *)
| NoCandidates     (* line 155 *)
| QueryText        (* line 169 *)
| NetworkError     (* line 172 *)
| UnknownError.    (* line 174 *)

(** Lines 152 to 155: [Some text] when the candidate text was extracted and
    stripped, [None] when the [else] branch is taken. *)
Definition candidate_text (result : json) : outcome (option str) :=
  has_candidates <- py_in (py "candidates") result ;;
  if (has_candidates : bool) then
    candidates <- getitem_key result (py "candidates") ;;
    n <- py_len candidates ;;
    if (0 <? n)%nat then
      candidate <- getitem_0 candidates ;;
      content <- getitem_key candidate (py "content") ;;
      parts <- getitem_key content (py "parts") ;;
      part <- getitem_0 parts ;;
      text <- getitem_key part (py "text") ;;
      sql_query <- py_strip text ;;
      Returns (Some sql_query)
    else Returns None
  else Returns None.

Section Interpreter.
Variable to_upper_full : code_point -> str.
(** [str(e)] *)
Variable exn_str : exn -> str.

(** The body of the [try], lines 139 to 169. *)
Definition generate_sql_query_try (response : http_result) : outcome (return_site * str) :=
  match response with
  | HttpRaised e => Raises e
  | HttpResponse status_code text json_body =>
      if negb (status_code =? 200)%Z then
        Returns (ApiStatusError,
                 py "API Error " ++ str_of_Z status_code ++ py ": " ++ text)
      else
        result <- json_body ;;
        extracted <- candidate_text result ;;
        match extracted with
        | Some sql_query => Returns (QueryText, sanitize to_upper_full sql_query)
        | None => Returns (NoCandidates, py "Error: No response generated")
        end
  end.

(** The whole function, with the [return] statement that was reached. *)
Definition generate_sql_query_at (response : http_result)
    : outcome (return_site * str) :=
  match generate_sql_query_try response with
  | Returns r => Returns r
  | Raises e =>
      if is_RequestException e then
        Returns (NetworkError, py "Network error: " ++ exn_str e)
      else if is_Exception e then
        Returns (UnknownError, py "Error generating query: " ++ exn_str e)
      else Raises e
  end.

Definition generate_sql_query (response : http_result) : outcome str :=
  r <- generate_sql_query_at response ;; Returns (snd r).
End Interpreter.

(** What one turn of the loop in [main] does with the generated string. *)
Inductive action :=
| PrintError (message : str)
| PrintQuery (sql_query : str)
| ExecuteQuery (sql_query : str).

(** The test of line 264. *)
Definition is_error_result (sql_query : str) : bool :=
  startswith (py "Error") sql_query
  || startswith (py "API Error") sql_query
  || startswith (py "Network error") sql_query.

(** The kind of error a string announces, read off its first characters. *)
Definition error_kind (s : str) : option return_site :=
  if startswith (py "API Error ") s then Some ApiStatusError
  else if startswith (py "Network error: ") s then Some NetworkError
  else if startswith (py "Error generating query: ") s then Some UnknownError
  else if startswith (py "Error: No response generated") s
       then Some NoCandidates
  else None.

(** Lines 262 to 282; [execute] is the stripped, lower-cased answer to the
    confirmation question. *)
Definition main_step (sql_query execute : str) : list action :=
  if is_error_result sql_query then [PrintError sql_query]
  else PrintQuery sql_query ::
       (if eq_str execute (py "y") then [ExecuteQuery sql_query] else []).

End Completion.

Import Completion.

(** *** [get_database_schema] and [execute_query] *)

Module Database.

(** A value in a row. *)
Inductive cell :=
| CNone
| CInt (z : Z)
| CStr (s : str).

(** [str(val)] *)
Definition cell_str (c : cell) : str :=
  match c with
  | CNone => py "None"
  | CInt z => str_of_Z z
  | CStr s => s
  end.

Definition cell_is_str (s : str) (c : cell) : bool :=
  match c with CStr s' => eq_str s s' | _ => false end.

Record result_set := ResultSet {
  rs_description : list str;
  rs_rows : list (list cell)
}.

(** What a statement that the server accepts leaves in the cursor: a
    result set, or none (after an INSERT, say).  Without a result set
    [cursor.description] is [None]; what [cursor.fetchall()] does then is the
    driver's business, [fetched]: it raises or returns rows. *)
Inductive executed :=
| ResultSetOf (rs : result_set)
| NoResultSet (fetched : outcome (list (list cell))).

(** The database server as the driver sees it: whether connecting fails,
    and what a statement yields, an error or what is left in the cursor. *)
Record server := Server {
  srv_connect : option exn;
  srv_execute : str -> outcome executed
}.

(** The resources the process holds. *)
Record resources := Resources {
  open_connections : nat;
  open_cursors : nat
}.

(** A computation that may raise and that opens and closes resources; what
    is open stays open when an exception is raised. *)
Definition M (A : Type) : Type := resources -> outcome A * resources.

Definition retM {A} (a : A) : M A := fun st => (Returns a, st).

Definition bindM {A B} (m : M A) (k : A -> M B) : M B :=
  fun st =>
    match m st with
    | (Returns a, st') => k a st'
    | (Raises e, st') => (Raises e, st')
    end.

Notation "x <~ m ;; k" := (bindM m (fun x => k))
  (at level 100, m at next level, right associativity).

Definition lift {A} (o : outcome A) : M A := fun st => (o, st).

Definition try_exceptM {A} (body : M A) (catches : exn -> bool)
    (handler : exn -> M A) : M A :=
  fun st =>
    match body st with
    | (Returns a, st') => (Returns a, st')
    | (Raises e, st') => if catches e then handler e st' else (Raises e, st')
    end.

(** [mysql.connector.connect] with the configured parameters *)
Definition connect (srv : server) : M unit :=
  fun st =>
    match srv_connect srv with
    | Some e => (Raises e, st)
    | None => (Returns tt, Resources (S (open_connections st)) (open_cursors st))
    end.

(** [conn.cursor()] *)
Definition cursor : M unit :=
  fun st => (Returns tt, Resources (open_connections st) (S (open_cursors st))).

(** [cursor.execute(statement)] *)
Definition execute (srv : server) (statement : str) : M executed :=
  lift (srv_execute srv statement).

(** [cursor.fetchall()] *)
Definition fetchall (r : executed) : M (list (list cell)) :=
  match r with
  | ResultSetOf rs => retM (rs_rows rs)
  | NoResultSet fetched => lift fetched
  end.

(** [[desc[0] for desc in cursor.description]], line 186: iterating over
    [None] raises [TypeError]. *)
Definition description (r : executed) : M (list str) :=
  match r with
  | ResultSetOf rs => retM (rs_description rs)
  | NoResultSet _ => lift (Raises (Exn TypeError (py "iter")))
  end.

(** [cursor.close()] and [conn.close()] *)
Definition cursor_close : M unit :=
  fun st => (Returns tt, Resources (open_connections st) (pred (open_cursors st))).

Definition conn_close : M unit :=
  fun st => (Returns tt, Resources (pred (open_connections st)) (open_cursors st)).

(** [(table_name,) = row] *)
Definition unpack1 (row : list cell) : outcome cell :=
  match row with
  | [x] => Returns x
  | _ => Raises (Exn ValueError (py "unpack"))
  end.

(** [col_name, col_type, null, key, default, extra = column] *)
Definition unpack6 (column : list cell)
    : outcome (cell * cell * cell * cell * cell * cell) :=
  match column with
  | [a; b; c; d; e; f] => Returns (a, b, c, d, e, f)
  | _ => Raises (Exn ValueError (py "unpack"))
  end.

(** The loop of lines 93 to 95. *)
Fixpoint describe_columns (columns : list (list cell)) (schema : list str)
    : outcome (list str) :=
  match columns with
  | [] => Returns schema
  | column :: rest =>
      fields <- unpack6 column ;;
      let '(col_name, col_type, _, key, _, _) := fields in
      describe_columns rest
        (schema ++ [py "  - " ++ cell_str col_name ++ py " ("
                    ++ cell_str col_type ++ py ")"
                    ++ (if cell_is_str (py "PRI") key
                        then py " PRIMARY KEY" else [])])
  end.

(** The loop of lines 86 to 95. *)
Fixpoint describe_tables (srv : server) (tables : list (list cell))
    (schema : list str) : M (list str) :=
  match tables with
  | [] => retM schema
  | row :: rest =>
      table_name <~ lift (unpack1 row) ;;
      let schema := schema ++ [[10] ++ py "Table: " ++ cell_str table_name] in
      r <~ execute srv (py "DESCRIBE " ++ cell_str table_name) ;;
      columns <~ fetchall r ;;
      schema <~ lift (describe_columns columns schema) ;;
      describe_tables srv rest schema
  end.

(** What [execute_query] returns: the pair of column names and rows, or the
    pair of [None] and an error message. *)
Inductive query_result :=
| QueryOk (column_names : list str) (results : list (list cell))
| QueryFailed (message : str).

(** The body of the [try] of [get_database_schema], lines 77 to 100. *)
Definition get_database_schema_try (srv : server) : M str :=
  _ <~ connect srv ;;
  _ <~ cursor ;;
  r <~ execute srv (py "SHOW TABLES") ;;
  tables <~ fetchall r ;;
  schema <~ describe_tables srv tables [] ;;
  _ <~ cursor_close ;;
  _ <~ conn_close ;;
  retM (join [10] schema).

(** The body of the [try] of [execute_query], lines 179 to 191. *)
Definition execute_query_try (srv : server) (sql_query : str) : M query_result :=
  _ <~ connect srv ;;
  _ <~ cursor ;;
  r <~ execute srv sql_query ;;
  results <~ fetchall r ;;
  column_names <~ description r ;;
  _ <~ cursor_close ;;
  _ <~ conn_close ;;
  retM (QueryOk column_names results).

Section Interpreter.
Variable exn_str : exn -> str.

Definition get_database_schema (srv : server) : M str :=
  try_exceptM (get_database_schema_try srv) is_DatabaseError
    (fun err => retM (py "Error getting schema: " ++ exn_str err)).

Definition execute_query (srv : server) (sql_query : str) : M query_result :=
  try_exceptM (execute_query_try srv sql_query) is_DatabaseError
    (fun err =>
       retM (QueryFailed (py "Error executing query: " ++ exn_str err))).
End Interpreter.

(** Nothing is held at the start of a call. *)
Definition idle : resources := Resources 0 0.

(** A server on which every statement is rejected (a syntax error, say). *)
Definition rejecting_server : server :=
  Server None (fun _ => Raises (Exn DatabaseError (py "execute"))).

(** A server with one table [t] of one column [id]; after its DELETE the
    driver's [fetchall] returns no rows. *)
Definition small_server : server :=
  Server None (fun statement =>
    if eq_str statement (py "SHOW TABLES")
    then Returns (ResultSetOf
           (ResultSet [py "Tables_in_db"] [[CStr (py "t")]]))
    else if eq_str statement (py "DESCRIBE t")
    then Returns (ResultSetOf (ResultSet
           [py "Field"; py "Type"; py "Null"; py "Key"; py "Default"; py "Extra"]
           [[CStr (py "id"); CStr (py "int"); CStr (py "NO"); CStr (py "PRI");
             CNone; CStr []]]))
    else if eq_str statement (py "SELECT id FROM t")
    then Returns (ResultSetOf (ResultSet [py "id"] [[CInt 1]; [CInt 22]]))
    else if eq_str statement (py "DELETE FROM t")
    then Returns (NoResultSet (Returns []))
    else Raises (Exn DatabaseError (py "execute"))).

End Database.

Import Database.

(** *** [format_results] *)

Module Formatter.

Section Cells.
Context {cell : Type}.
(** [str(val)] for the values found in rows. *)
Variable py_str : cell -> str.

(** The inner loop of lines 204 and 205, from index [i] on. *)
Fixpoint widen_row (widths : list nat) (i : nat) (row : list cell)
    : outcome (list nat) :=
  match row with
  | [] => Returns widths
  | val :: rest =>
      match widths !! i with
      | None => Raises (Exn IndexError (py "getitem"))
      | Some w =>
          widen_row (<[i := Nat.max w (length (py_str val))]> widths)
                    (S i) rest
      end
  end.

(** The outer loop of lines 203 to 205. *)
Fixpoint widen_rows (widths : list nat) (results : list (list cell))
    : outcome (list nat) :=
  match results with
  | [] => Returns widths
  | row :: rest =>
      widths' <- widen_row widths 0 row ;;
      widen_rows widths' rest
  end.

(** Lines 202 to 205. *)
Definition compute_widths (column_names : list str)
    (results : list (list cell)) : outcome (list nat) :=
  widen_rows (map (fun name => length name) column_names) results.

(** [to_str(x).ljust(widths[i]) for i, x in enumerate(items)], from [i]. *)
Fixpoint ljust_each {A} (to_str : A -> str) (widths : list nat) (i : nat)
    (items : list A) : outcome (list str) :=
  match items with
  | [] => Returns []
  | x :: rest =>
      match widths !! i with
      | None => Raises (Exn IndexError (py "getitem"))
      | Some w =>
          cells <- ljust_each to_str widths (S i) rest ;;
          Returns (ljust w (to_str x) :: cells)
      end
  end.

(** The loop of lines 213 and 214. *)
Fixpoint format_rows (widths : list nat) (results : list (list cell))
    : outcome (list str) :=
  match results with
  | [] => Returns []
  | row :: rest =>
      cells <- ljust_each py_str widths 0 row ;;
      rows <- format_rows widths rest ;;
      Returns (join (py " | ") cells :: rows)
  end.

Definition format_results (column_names : list str)
    (results : list (list cell)) : outcome str :=
  match results with
  | [] => Returns (py "No results found.")
  | _ :: _ =>
      widths <- compute_widths column_names results ;;
      names <- ljust_each (fun name => name) widths 0 column_names ;;
      let header := join (py " | ") names in
      let separator := join (py "-+-") (map (fun width => repeat 45 width) widths) in
      rows <- format_rows widths results ;;
      Returns ([10] ++ header ++ [10] ++ separator ++ [10] ++ join [10] rows)
  end.

(** What a row does to the width [w] of column [j]. *)
Definition widen_cell (row : list cell) (j : nat) (w : nat) : nat :=
  match row !! j with
  | Some val => Nat.max w (length (py_str val))
  | None => w
  end.

(** [w] is the largest of the header's length and the lengths of the cells
    that the rows have in column [j]. *)
Definition is_column_width (name : str) (results : list (list cell))
    (j : nat) (w : nat) : Prop :=
  (length name <= w)%nat
  /\ (forall row val, In row results -> row !! j = Some val ->
        (length (py_str val) <= w)%nat)
  /\ (w = length name
      \/ exists row val, In row results /\ row !! j = Some val
                         /\ w = length (py_str val)).
End Cells.

End Formatter.

Import Formatter.

(** *** [__init__] *)

Module Init.

(** [self.db_config] *)
Record db_config := DbConfig {
  host : str;
  user : str;
  password : option str;
  database : option str
}.

(** The attributes of a [PromptToSQLConverter]. *)
Record converter := Converter {
  conv_db_config : db_config;
  api_key : str;
  model_name : str;
  api_url : str;
  schema_info : str
}.

(** [os.getenv]: the value of a variable, if it is set. *)
Definition environ := str -> option str.

Definition missing_key_message : str :=
  py "GEMINI_API_KEY not found in environment variables".

Definition models_url : str :=
  py "https://generativelanguage.googleapis.com/v1/models/".

Section Interpreter.
Variable exn_str : exn -> str.

(** Lines 12 to 32.  [catalog] is what the request of [get_available_model]
    meets and [srv] the server that the connection parameters reach. *)
Definition init (env : environ) (catalog : http_result) (srv : server)
    : M converter :=
  let config :=
    DbConfig (default (py "localhost") (env (py "DB_HOST")))
             (default (py "root") (env (py "DB_USER")))
             (env (py "DB_PASSWORD")) (env (py "DB_NAME")) in
  match env (py "GEMINI_API_KEY") with
  | Some (c :: key) =>
      let api_key := c :: key in
      model_name <~ lift (get_available_model catalog) ;;
      let api_url :=
        models_url ++ model_name ++ py ":generateContent?key=" ++ api_key in
      schema_info <~ get_database_schema exn_str srv ;;
      retM (Converter config api_key model_name api_url schema_info)
  | _ => lift (Raises (Exn ValueError missing_key_message))
  end.
End Interpreter.

End Init.

Import Init.

(** *** Measures of a rendered table *)

(** Every row has as many cells as there are column names, as the rows of
    a result set have. *)
Definition rectangular {cell : Type} (column_names : list str)
    (results : list (list cell)) : Prop :=
  Forall (fun row => length row = length column_names) results.

(** The length of a line made of one field per width, joined by a
    separator of three characters. *)
Definition table_width (widths : list nat) : nat :=
  list_sum widths + 3 * (length widths - 1).

(** ** Part II. Properties *)

(** *** Stripping *)

Section StripFacts.
Variable p : code_point -> bool.

Lemma lstrip_by_id s : starts_by p s = false -> lstrip_by p s = s.
Proof. destruct s as [|c s]; simpl; [done|]. by intros ->. Qed.

Lemma starts_by_lstrip s : starts_by p (lstrip_by p s) = false.
Proof.
  induction s as [|c s IH]; simpl; [done|].
  destruct (p c) eqn:Hc; [done|]. by simpl.
Qed.

Lemma lstrip_by_suffix s :
  exists l, s = l ++ lstrip_by p s /\ forallb p l = true.
Proof.
  induction s as [|c s (l & Hl & Hall)]; simpl.
  - by exists [].
  - destruct (p c) eqn:Hc.
    + exists (c :: l). simpl. rewrite Hc, Hall. split; [by f_equal|done].
    + by exists [].
Qed.

Lemma lstrip_by_app_all l s :
  forallb p l = true -> lstrip_by p (l ++ s) = lstrip_by p s.
Proof.
  induction l as [|c l IH]; simpl; [done|].
  intros [Hc Hl]%andb_prop. rewrite Hc. auto.
Qed.

Lemma lstrip_by_snoc s c :
  p c = false -> lstrip_by p (s ++ [c]) = lstrip_by p s ++ [c].
Proof.
  intros Hc. induction s as [|d s IH]; simpl.
  - by rewrite Hc.
  - destruct (p d); [done|reflexivity].
Qed.

Lemma rstrip_by_snoc s c :
  rstrip_by p (s ++ [c]) = if p c then rstrip_by p s else s ++ [c].
Proof.
  unfold rstrip_by. rewrite rev_unit. simpl.
  destruct (p c); [done|]. simpl. by rewrite rev_involutive.
Qed.

Lemma rstrip_by_cons c s :
  p c = false -> rstrip_by p (c :: s) = c :: rstrip_by p s.
Proof.
  intros Hc. unfold rstrip_by. simpl.
  rewrite lstrip_by_snoc by done. by rewrite rev_unit.
Qed.

Lemma rstrip_by_id s : ends_by p s = false -> rstrip_by p s = s.
Proof.
  unfold ends_by, rstrip_by. intros H.
  rewrite lstrip_by_id by done. apply rev_involutive.
Qed.

Lemma ends_by_rstrip s : ends_by p (rstrip_by p s) = false.
Proof.
  unfold ends_by, rstrip_by. rewrite rev_involutive.
  apply starts_by_lstrip.
Qed.

Lemma rstrip_by_prefix s :
  exists r, s = rstrip_by p s ++ r /\ forallb p r = true.
Proof.
  unfold rstrip_by.
  destruct (lstrip_by_suffix (rev s)) as (l & Hl & Hall).
  exists (rev l). split.
  - rewrite <- rev_app_distr, <- Hl. symmetry. apply rev_involutive.
  - rewrite forallb_forall in *. intros x Hx. apply Hall.
    by apply in_rev.
Qed.

Lemma rstrip_by_app_all s r :
  forallb p r = true -> rstrip_by p (s ++ r) = rstrip_by p s.
Proof.
  intros Hr. unfold rstrip_by. rewrite rev_app_distr.
  rewrite lstrip_by_app_all; [done|].
  rewrite forallb_forall in *. intros x Hx. apply Hr. by apply in_rev.
Qed.

Lemma starts_by_rstrip s :
  starts_by p s = false -> starts_by p (rstrip_by p s) = false.
Proof.
  destruct s as [|c s]; [done|]. simpl. intros Hc.
  by rewrite rstrip_by_cons.
Qed.

Lemma strip_by_id s :
  starts_by p s = false -> ends_by p s = false -> strip_by p s = s.
Proof.
  intros Hs He. unfold strip_by.
  rewrite lstrip_by_id by done. by apply rstrip_by_id.
Qed.

Lemma starts_by_strip s : starts_by p (strip_by p s) = false.
Proof. apply starts_by_rstrip, starts_by_lstrip. Qed.

Lemma ends_by_strip s : ends_by p (strip_by p s) = false.
Proof. apply ends_by_rstrip. Qed.

Lemma strip_by_segment s :
  exists l r, s = l ++ strip_by p s ++ r
              /\ forallb p l = true /\ forallb p r = true.
Proof.
  destruct (lstrip_by_suffix s) as (l & Hl & Hall).
  destruct (rstrip_by_prefix (lstrip_by p s)) as (r & Hr & Harr).
  exists l, r. unfold strip_by. by rewrite <- Hr.
Qed.

(** Stripping a text wrapped in characters of the set gives the core. *)
Lemma strip_by_wrapped l core r :
  forallb p l = true -> forallb p r = true ->
  starts_by p core = false -> ends_by p core = false ->
  strip_by p (l ++ core ++ r) = core.
Proof.
  intros Hl Hr Hs He. unfold strip_by.
  rewrite lstrip_by_app_all by done.
  destruct core as [|c core].
  - simpl. rewrite <- (app_nil_r r), lstrip_by_app_all by done.
    reflexivity.
  - simpl in Hs. simpl. rewrite Hs.
    change (c :: core ++ r) with ((c :: core) ++ r).
    rewrite rstrip_by_app_all by done. by apply rstrip_by_id.
Qed.
End StripFacts.

(** *** Prefixes, occurrences and [find] *)

Lemma startswith_app p s : startswith p (p ++ s) = true.
Proof. induction p as [|a p IH]; simpl; [done|]. by rewrite N.eqb_refl. Qed.

Lemma startswith_inv p s : startswith p s = true -> exists r, s = p ++ r.
Proof.
  revert s. induction p as [|a p IH]; intros s H; simpl in *.
  - by exists s.
  - destruct s as [|b s]; [done|].
    apply andb_prop in H as [Hab Hp]. apply N.eqb_eq in Hab as ->.
    destruct (IH _ Hp) as [r ->]. by exists r.
Qed.

Lemma startswith_cons a p d s :
  startswith (a :: p) (d :: s) = true -> a = d /\ startswith p s = true.
Proof. simpl. intros [H ?]%andb_prop. by apply N.eqb_eq in H. Qed.

Lemma startswith_head c p s :
  startswith (c :: p) s = true -> starts_by (N.eqb c) s = true.
Proof. destruct s; simpl; [done|]. by intros [? _]%andb_prop. Qed.

Lemma startswith_prefix p x s :
  startswith (p ++ x) s = true -> startswith p s = true.
Proof.
  intros [r ->]%startswith_inv. rewrite <- app_assoc. apply startswith_app.
Qed.

Lemma segment_of_refl s : segment_of s s.
Proof. exists [], []. by rewrite app_nil_r. Qed.

Lemma segment_of_trans x y z : segment_of x y -> segment_of y z -> segment_of x z.
Proof.
  intros (a & b & ->) (c & d & ->). exists (c ++ a), (b ++ d).
  by rewrite <- !app_assoc.
Qed.

Lemma segment_of_length x s : segment_of x s -> (length x <= length s)%nat.
Proof. intros (a & b & ->). rewrite !length_app. lia. Qed.

Lemma segment_of_full x s :
  segment_of x s -> (length s <= length x)%nat -> x = s.
Proof.
  intros (a & b & ->). rewrite !length_app. intros H.
  destruct a; [|simpl in H; lia]. destruct b; [|simpl in H; lia].
  by rewrite app_nil_r.
Qed.

Lemma segment_of_drop n s : segment_of (drop n s) s.
Proof. exists (take n s), []. by rewrite app_nil_r, take_drop. Qed.

Lemma segment_of_Forall (P : code_point -> Prop) x s :
  segment_of x s -> Forall P s -> Forall P x.
Proof.
  intros (a & b & ->) H.
  apply Forall_app in H as [_ H]. by apply Forall_app in H as [H _].
Qed.

Lemma segment_of_lstrip p s : segment_of (lstrip_by p s) s.
Proof.
  destruct (lstrip_by_suffix p s) as (l & Hl & _).
  exists l, []. by rewrite app_nil_r.
Qed.

Lemma segment_of_rstrip p s : segment_of (rstrip_by p s) s.
Proof. destruct (rstrip_by_prefix p s) as (r & Hr & _). by exists [], r. Qed.

Lemma segment_of_strip p s : segment_of (strip_by p s) s.
Proof. destruct (strip_by_segment p s) as (l & r & H & _). by exists l, r. Qed.

Lemma startswith_contains p s : startswith p s = true -> contains p s = true.
Proof. destruct s; simpl; by intros ->. Qed.

Lemma contains_segment p s : contains p s = true <-> segment_of p s.
Proof.
  split.
  - induction s as [|c s IH]; simpl.
    + rewrite orb_false_r. intros [r Hr]%startswith_inv. by exists [], r.
    + intros [H|H]%orb_prop.
      * apply startswith_inv in H as [r Hr]. by exists [], r.
      * destruct (IH H) as (a & b & ->). by exists (c :: a), b.
  - intros (a & b & ->). induction a as [|c a IH]; simpl.
    + apply startswith_contains, startswith_app.
    + by rewrite IH, orb_true_r.
Qed.

Lemma contains_within p x s :
  segment_of x s -> contains p s = false -> contains p x = false.
Proof.
  intros Hx Hs. destruct (contains p x) eqn:E; [|done].
  apply contains_segment in E.
  assert (contains p s = true) as Hc; [|congruence].
  apply contains_segment. by apply segment_of_trans with x.
Qed.

Lemma contains_longer p x s :
  contains p s = false -> contains (p ++ x) s = false.
Proof.
  intros Hs. destruct (contains (p ++ x) s) eqn:E; [|done].
  apply contains_segment in E as (a & b & ->).
  assert (contains p (a ++ (p ++ x) ++ b) = true) as Hc; [|congruence].
  apply contains_segment. exists a, (x ++ b). by rewrite <- app_assoc.
Qed.

Lemma contains_false_startswith p s :
  contains p s = false -> startswith p s = false.
Proof. destruct s; simpl; by intros [? _]%orb_false_elim. Qed.

Lemma find_startswith p s : startswith p s = true -> find p s = 0%Z.
Proof. destruct s; simpl; by intros ->. Qed.

(** When [p] occurs, [find] returns the index of its first occurrence. *)
Lemma find_first p s :
  contains p s = true ->
  exists n : nat,
    find p s = Z.of_nat n /\ startswith p (drop n s) = true
    /\ forall m : nat, (m < n)%nat -> startswith p (drop m s) = false.
Proof.
  induction s as [|c s IH]; simpl.
  - rewrite orb_false_r. intros H. exists 0%nat. rewrite H.
    repeat split; [done|]. intros m Hm. lia.
  - destruct (startswith p (c :: s)) eqn:E.
    + intros _. exists 0%nat. repeat split; [done|]. intros m Hm. lia.
    + simpl. intros H. destruct (IH H) as (n & Hf & Hn & Hmin).
      exists (S n). rewrite Hf.
      destruct (Z.ltb_spec (Z.of_nat n) 0); [lia|].
      repeat split; [lia|done|].
      intros [|m] Hm; [done|]. simpl. apply Hmin. lia.
Qed.

Lemma slice_from_nat (n : nat) s : slice_from (Z.of_nat n) s = drop n s.
Proof.
  unfold slice_from. destruct (Z.ltb_spec (Z.of_nat n) 0); [lia|].
  by rewrite Nat2Z.id.
Qed.

(** *** [replace] *)

Lemma replace_from_skip old new k s :
  replace_from old new k s = replace old new (drop k s).
Proof.
  revert k. induction s as [|c s IH]; intros [|k]; simpl; auto.
Qed.

Lemma replace_nil old new : replace old new [] = [].
Proof. done. Qed.

Lemma replace_cons_no old new c s :
  startswith old (c :: s) = false ->
  replace old new (c :: s) = c :: replace old new s.
Proof. unfold replace. simpl. by intros ->. Qed.

Lemma replace_match old new s :
  old <> [] -> startswith old s = true ->
  replace old new s = new ++ replace old new (drop (length old) s).
Proof.
  intros Hne H. destruct s as [|c s].
  - destruct old; [done|discriminate].
  - unfold replace at 1. cbn [replace_from]. rewrite H.
    rewrite replace_from_skip. destruct old as [|o old]; [done|].
    simpl. by rewrite Nat.sub_0_r.
Qed.

Lemma replace_absent old new s :
  contains old s = false -> replace old new s = s.
Proof.
  induction s as [|c s IH]; [done|].
  simpl. intros [H1 H2]%orb_false_elim.
  rewrite replace_cons_no by done. by rewrite IH.
Qed.

Lemma replace_leading old new s :
  old <> [] ->
  replace old new (old ++ s) = new ++ replace old new s.
Proof.
  intros Hne. rewrite replace_match by (done || apply startswith_app).
  by rewrite drop_app_length.
Qed.

Lemma replace_from_Forall (P : code_point -> Prop) old k s :
  Forall P s -> Forall P (replace_from old [] k s).
Proof.
  intros H. revert k. induction H as [|c s Hc Hs IH]; intros k; simpl.
  - constructor.
  - destruct k; [|apply IH].
    destruct (startswith old (c :: s)); simpl; [apply IH|].
    constructor; [done|apply IH].
Qed.

Lemma replace_Forall (P : code_point -> Prop) old s :
  Forall P s -> Forall P (replace old [] s).
Proof. apply replace_from_Forall. Qed.

(** After every run of three equal characters has been deleted, no such run
    is left. *)
Lemma replace_triple_head c u :
  starts_by (N.eqb c) (replace [c; c; c] [] u) = true ->
  starts_by (N.eqb c) u = true.
Proof.
  destruct u as [|d u]; [done|].
  destruct (startswith [c; c; c] (d :: u)) eqn:E.
  - intros _. simpl in *. by apply andb_prop in E as [-> _].
  - by rewrite replace_cons_no.
Qed.

Lemma replace_triple_clean c s :
  contains [c; c; c] (replace [c; c; c] [] s) = false.
Proof.
  remember (length s) as n eqn:Hn. revert s Hn.
  induction n as [n IH] using lt_wf_ind. intros s Hn.
  destruct s as [|d s]; [done|].
  destruct (startswith [c; c; c] (d :: s)) eqn:E.
  - rewrite replace_match by done.
    apply (IH (length (drop 3 (d :: s)))); [|done].
    rewrite length_drop. simpl in *. lia.
  - rewrite replace_cons_no by done.
    cbn [contains]. rewrite (IH (length s)) by (simpl in *; lia || done).
    rewrite orb_false_r.
    destruct (startswith [c; c; c] (d :: replace [c; c; c] [] s)) eqn:F; [|done].
    exfalso. apply startswith_cons in F as [<- F].
    pose proof (replace_triple_head _ _ (startswith_head _ _ _ F)) as H1.
    destruct s as [|d1 s]; [done|]. simpl in H1. apply N.eqb_eq in H1 as <-.
    destruct (startswith [c; c; c] (c :: s)) eqn:G.
    { apply startswith_cons in G as [_ [r ->]%startswith_inv].
      simpl in E. by rewrite !N.eqb_refl in E. }
    rewrite replace_cons_no in F by done.
    apply startswith_cons in F as [_ F].
    pose proof (replace_triple_head _ _ (startswith_head _ _ _ F)) as H2.
    destruct s as [|d2 s]; [done|]. simpl in H2. apply N.eqb_eq in H2 as <-.
    simpl in E. by rewrite !N.eqb_refl in E.
Qed.

(** *** [upper] *)

Lemma upper_app up a b : upper up (a ++ b) = upper up a ++ upper up b.
Proof. apply flat_map_app. Qed.

Lemma upper_segment up x s :
  segment_of x s -> segment_of (upper up x) (upper up s).
Proof.
  intros (a & b & ->). exists (upper up a), (upper up b).
  by rewrite !upper_app.
Qed.

(** On a text whose characters have a one-letter uppercase, the ASCII one,
    [upper] works character by character. *)
Lemma upper_plain up s : plain_case up s -> upper up s = map ascii_upper s.
Proof.
  induction 1 as [|c s Hc Hs IH]; simpl; [done|]. by rewrite Hc, IH.
Qed.

Lemma drop_map_upper n s : drop n (map ascii_upper s) = map ascii_upper (drop n s).
Proof.
  revert n. induction s as [|c s IH]; intros [|n]; simpl; auto.
Qed.

Lemma is_space_range c : is_space c = true -> c <= 32 \/ 133 <= c.
Proof.
  unfold is_space.
  rewrite !orb_true_iff, !andb_true_iff, !N.leb_le, !N.eqb_eq. lia.
Qed.

(** A character whose uppercase is an ASCII capital is neither white space,
    nor a semicolon, nor a quote. *)
Lemma capital_not_stripped c :
  65 <= ascii_upper c <= 90 ->
  is_space c = false /\ mem_char semicolon c = false
  /\ mem_char quote_chars c = false.
Proof.
  intros H.
  assert (65 <= c <= 122) as Hc.
  { unfold ascii_upper in H.
    destruct ((97 <=? c) && (c <=? 122)) eqn:E; [|lia].
    apply andb_prop in E as [E1 E2]. apply N.leb_le in E1, E2. lia. }
  repeat split.
  - destruct (is_space c) eqn:E; [|done]. apply is_space_range in E. lia.
  - unfold mem_char. simpl. rewrite orb_false_r. apply N.eqb_neq. lia.
  - unfold mem_char. simpl. rewrite orb_false_r.
    apply orb_false_intro; apply N.eqb_neq; lia.
Qed.

(** *** The clean-up steps *)

Section SanitizerFacts.
Variable up : code_point -> str.

Lemma fence_triple : fence = [96; 96; 96].
Proof. reflexivity. Qed.

Lemma fence_sql_longer : fence_sql = fence ++ py "sql".
Proof. reflexivity. Qed.

Lemma SELECT_chars : SELECT = [83; 69; 76; 69; 67; 84].
Proof. reflexivity. Qed.

Lemma remove_fences_segment t :
  segment_of (remove_fences t) (replace fence [] (replace fence_sql [] t)).
Proof. apply segment_of_strip. Qed.

Lemma remove_fences_clean t : contains fence (remove_fences t) = false.
Proof.
  eapply contains_within; [apply remove_fences_segment|].
  rewrite fence_triple. apply replace_triple_clean.
Qed.

Lemma remove_fences_Forall (P : code_point -> Prop) t :
  Forall P t -> Forall P (remove_fences t).
Proof.
  intros H. eapply segment_of_Forall; [apply remove_fences_segment|].
  by do 2 apply replace_Forall.
Qed.

Lemma remove_fences_id t :
  contains fence t = false ->
  starts_by is_space t = false -> ends_by is_space t = false ->
  remove_fences t = t.
Proof.
  intros Hf Hs He. unfold remove_fences.
  rewrite (replace_absent fence_sql).
  - rewrite replace_absent by done. by apply strip_by_id.
  - rewrite fence_sql_longer. by apply contains_longer.
Qed.

Lemma strip_quotes_segment s : segment_of (strip_quotes s) s.
Proof. apply segment_of_strip. Qed.

Lemma remove_text_before_select_segment s :
  segment_of (remove_text_before_select up s) s.
Proof.
  unfold remove_text_before_select.
  destruct (contains SELECT (upper up s)); [|apply segment_of_refl].
  unfold slice_from. apply segment_of_drop.
Qed.

Lemma remove_semicolon_at_end_segment s :
  segment_of (remove_semicolon_at_end s) s.
Proof.
  unfold remove_semicolon_at_end.
  eapply segment_of_trans; [apply segment_of_strip|apply segment_of_rstrip].
Qed.

Lemma remove_semicolon_at_end_id s :
  starts_by is_space s = false -> ends_by is_space s = false ->
  ends_by (mem_char semicolon) s = false ->
  remove_semicolon_at_end s = s.
Proof.
  intros Hs He Hsemi. unfold remove_semicolon_at_end, rstrip_chars.
  rewrite rstrip_by_id by done. by apply strip_by_id.
Qed.

Lemma sanitize_segment t : segment_of (sanitize up t) (remove_fences t).
Proof.
  unfold sanitize.
  eapply segment_of_trans; [apply remove_semicolon_at_end_segment|].
  eapply segment_of_trans; [apply remove_text_before_select_segment|].
  apply strip_quotes_segment.
Qed.

(** The output holds no fence marker. *)
Lemma sanitize_no_fence t : contains fence (sanitize up t) = false.
Proof.
  eapply contains_within; [apply sanitize_segment|apply remove_fences_clean].
Qed.

(** The output neither begins nor ends with white space. *)
Lemma sanitize_trimmed t :
  starts_by is_space (sanitize up t) = false
  /\ ends_by is_space (sanitize up t) = false.
Proof.
  unfold sanitize, remove_semicolon_at_end, strip.
  split; [apply starts_by_strip|apply ends_by_strip].
Qed.

Lemma sanitize_plain t : plain_case up t -> plain_case up (sanitize up t).
Proof.
  intros H. eapply segment_of_Forall; [apply sanitize_segment|].
  by apply remove_fences_Forall.
Qed.

(** Without SELECT in the upper-cased text, the cut does nothing, also on
    any part of the text. *)
Lemma cut_absent x s :
  segment_of x s -> contains SELECT (upper up s) = false ->
  remove_text_before_select up x = x.
Proof.
  intros Hx Hs. unfold remove_text_before_select.
  by rewrite (contains_within SELECT _ _ (upper_segment up _ _ Hx) Hs).
Qed.

(** With plain case, the cut starts at the first occurrence of SELECT,
    compared without regard to case. *)
Lemma cut_plain q :
  plain_case up q -> contains SELECT (upper up q) = true ->
  exists n : nat,
    remove_text_before_select up q = drop n q
    /\ startswith SELECT (map ascii_upper (drop n q)) = true
    /\ forall m : nat, (m < n)%nat ->
         startswith SELECT (map ascii_upper (drop m q)) = false.
Proof.
  intros Hq Hc. unfold remove_text_before_select. rewrite Hc.
  rewrite (upper_plain _ _ Hq) in *.
  destruct (find_first _ _ Hc) as (n & Hf & Hn & Hmin).
  exists n. rewrite Hf, slice_from_nat, <- drop_map_upper.
  repeat split; [done|]. intros m Hm. rewrite <- drop_map_upper. auto.
Qed.

(** A text that begins with SELECT, in any case, still does after the
    trailing semicolons and white space are stripped, and keeps its first
    six characters. *)
Lemma select_head_kept x :
  startswith SELECT (map ascii_upper x) = true ->
  take 6 (remove_semicolon_at_end x) = take 6 x
  /\ startswith SELECT (map ascii_upper (remove_semicolon_at_end x)) = true.
Proof.
  rewrite SELECT_chars. intros H.
  destruct x as [|c1 [|c2 [|c3 [|c4 [|c5 [|c6 x]]]]]];
    try (cbn [map startswith] in H; rewrite ?andb_false_r in H;
         discriminate H).
  pose proof H as H'. cbn [map startswith] in H'.
  repeat (apply andb_prop in H' as [?%N.eqb_eq H']).
  assert (forall c, In c [c1; c2; c3; c4; c5; c6] ->
            is_space c = false /\ mem_char semicolon c = false) as Hk.
  { intros c Hc.
    assert (65 <= ascii_upper c <= 90) as Hu.
    { simpl in Hc. destruct Hc as [<-|[<-|[<-|[<-|[<-|[<-|[]]]]]]]; lia. }
    destruct (capital_not_stripped c Hu) as (? & ? & _). by split. }
  unfold remove_semicolon_at_end, rstrip_chars, strip, strip_by.
  rewrite !rstrip_by_cons by (apply Hk; simpl; tauto).
  cbn [lstrip_by]. rewrite (proj1 (Hk c1 ltac:(simpl; tauto))).
  rewrite !rstrip_by_cons by (apply Hk; simpl; tauto).
  split; [done|]. cbn [map startswith] in *.
  repeat (apply andb_prop in H as [-> H]). reflexivity.
Qed.

Lemma cut_at_head s :
  plain_case up s -> startswith SELECT (map ascii_upper s) = true ->
  remove_text_before_select up s = s.
Proof.
  intros Hs H. unfold remove_text_before_select.
  rewrite (upper_plain _ _ Hs).
  rewrite (startswith_contains _ _ H), (find_startswith _ _ H).
  by rewrite (slice_from_nat 0).
Qed.

(** The texts the clean-up leaves as they are. *)
Lemma sanitize_fixed s :
  contains fence s = false ->
  starts_by is_space s = false -> ends_by is_space s = false ->
  starts_by (mem_char quote_chars) s = false ->
  ends_by (mem_char quote_chars) s = false ->
  ends_by (mem_char semicolon) s = false ->
  remove_text_before_select up s = s ->
  sanitize up s = s.
Proof.
  intros Hf Hs He Hq1 Hq2 Hsemi Hcut. unfold sanitize.
  rewrite remove_fences_id by done.
  unfold strip_quotes, strip_chars. rewrite strip_by_id by done.
  rewrite Hcut. by apply remove_semicolon_at_end_id.
Qed.
End SanitizerFacts.

(** *** The clean-up: what holds of its output *)

Section SanitizerClaims.
Variable up : code_point -> str.

(** (X4) With plain case, a text that holds SELECT is cut at the first
    occurrence, found without regard to case; the output is what follows,
    less the trailing semicolons and white space, and begins with the six
    characters of that occurrence as they were written. *)
Lemma sanitize_starts_at_first_select t :
  plain_case up t ->
  contains SELECT (upper up (strip_quotes (remove_fences t))) = true ->
  exists n : nat,
    let q := strip_quotes (remove_fences t) in
    startswith SELECT (map ascii_upper (drop n q)) = true
    /\ (forall m : nat, (m < n)%nat ->
          startswith SELECT (map ascii_upper (drop m q)) = false)
    /\ sanitize up t = remove_semicolon_at_end (drop n q)
    /\ take 6 (sanitize up t) = take 6 (drop n q).
Proof.
  intros Ht Hc. set (q := strip_quotes (remove_fences t)) in *.
  assert (plain_case up q) as Hq.
  { eapply segment_of_Forall; [apply strip_quotes_segment|].
    by apply remove_fences_Forall. }
  destruct (cut_plain up q Hq Hc) as (n & Hcut & Hn & Hmin).
  exists n. cbn zeta. split; [done|]. split; [done|].
  unfold sanitize. fold q. rewrite Hcut. split; [done|].
  by apply select_head_kept.
Qed.

(** (C1, amended) For every raw completion text with plain case, if the
    output of the clean-up neither begins nor ends with a quote character
    and does not end with a semicolon, then cleaning the output again
    returns it unchanged. *)
Theorem sanitize_idempotent_on_settled_output t :
  plain_case up t ->
  starts_by (mem_char quote_chars) (sanitize up t) = false ->
  ends_by (mem_char quote_chars) (sanitize up t) = false ->
  ends_by (mem_char semicolon) (sanitize up t) = false ->
  sanitize up (sanitize up t) = sanitize up t.
Proof.
  intros Ht Hq1 Hq2 Hsemi.
  destruct (sanitize_trimmed up t) as [Hs He].
  apply sanitize_fixed; try done; [apply sanitize_no_fence|].
  set (q := strip_quotes (remove_fences t)).
  assert (plain_case up q) as Hq.
  { eapply segment_of_Forall; [apply strip_quotes_segment|].
    by apply remove_fences_Forall. }
  destruct (contains SELECT (upper up q)) eqn:E.
  - destruct (cut_plain up q Hq E) as (n & Hcut & Hn & _).
    apply cut_at_head; [by apply sanitize_plain|].
    unfold sanitize. fold q. rewrite Hcut.
    by apply select_head_kept.
  - unfold sanitize. fold q.
    rewrite (cut_absent up q q (segment_of_refl q) E).
    apply (cut_absent up _ q); [apply remove_semicolon_at_end_segment|done].
Qed.

(** (X5) The two conditions on the output cannot be dropped: an output that
    begins or ends with a quote, or ends with a semicolon, is changed by a
    second pass. *)
Lemma sanitize_changes_unsettled_output t :
  starts_by (mem_char quote_chars) (sanitize up t) = true
  \/ ends_by (mem_char quote_chars) (sanitize up t) = true
  \/ ends_by (mem_char semicolon) (sanitize up t) = true ->
  sanitize up (sanitize up t) <> sanitize up t.
Proof.
  set (s := sanitize up t). intros H Heq.
  assert (starts_by (mem_char quote_chars) s = false
          /\ ends_by (mem_char quote_chars) s = false
          /\ ends_by (mem_char semicolon) s = false) as (H1 & H2 & H3);
    [|destruct H as [H|[H|H]]; congruence].
  destruct (sanitize_trimmed up t) as [Hs He]. fold s in Hs, He.
  assert (remove_fences s = s) as Hf.
  { apply remove_fences_id; [apply sanitize_no_fence|done|done]. }
  unfold sanitize in Heq. rewrite Hf in Heq.
  set (q := strip_quotes s) in *.
  set (c := remove_text_before_select up q) in *.
  pose proof (segment_of_length _ _ (remove_semicolon_at_end_segment c)) as L1.
  pose proof (segment_of_length _ _ (remove_text_before_select_segment up q))
    as L2.
  pose proof (segment_of_length _ _ (strip_quotes_segment s)) as L3.
  fold c in L2. fold q in L3. rewrite Heq in L1.
  assert (q = s) as Hqs.
  { apply segment_of_full; [apply strip_quotes_segment|lia]. }
  assert (c = q) as Hcq.
  { apply segment_of_full; [apply remove_text_before_select_segment|lia]. }
  rewrite Hcq, Hqs in Heq.
  repeat split.
  - rewrite <- Hqs. apply starts_by_strip.
  - rewrite <- Hqs. apply ends_by_strip.
  - unfold remove_semicolon_at_end in Heq.
    pose proof (segment_of_length _ _
                  (segment_of_strip is_space (rstrip_chars semicolon s))) as L4.
    fold (strip (rstrip_chars semicolon s)) in L4. rewrite Heq in L4.
    assert (rstrip_chars semicolon s = s) as Hid.
    { apply segment_of_full; [apply segment_of_rstrip|done]. }
    rewrite <- Hid. apply ends_by_rstrip.
Qed.

(** (C4, amended) When the text that is left after the fence markers, the
    surrounding white space and the surrounding quotes are removed holds no
    SELECT, in any case, the cut leaves it as it is; the other steps still
    apply, so the output is that text less its trailing semicolons and
    white space.  The output is the raw text itself when this has no fence
    marker, no white space or quote at either end and no semicolon at the
    end. *)
Theorem sanitize_without_select t :
  contains SELECT (upper up (strip_quotes (remove_fences t))) = false ->
  sanitize up t = remove_semicolon_at_end (strip_quotes (remove_fences t))
  /\ (contains fence t = false ->
      starts_by is_space t = false -> ends_by is_space t = false ->
      starts_by (mem_char quote_chars) t = false ->
      ends_by (mem_char quote_chars) t = false ->
      ends_by (mem_char semicolon) t = false ->
      sanitize up t = t).
Proof.
  intros E. split.
  - unfold sanitize.
    by rewrite (cut_absent up _ _ (segment_of_refl _) E).
  - intros Hf Hs He Hq1 Hq2 Hsemi. apply sanitize_fixed; try done.
    apply (cut_absent up t (strip_quotes (remove_fences t))); [|done].
    rewrite remove_fences_id by done.
    unfold strip_quotes, strip_chars. rewrite strip_by_id by done.
    apply segment_of_refl.
Qed.
End SanitizerClaims.

(** (C3, amended) The quote-removal step strips every leading and every
    trailing quote character, double or single, however many there are: a
    core that neither begins nor ends with a quote, wrapped in any number of
    quote characters on each side, comes out bare. *)
Theorem strip_quotes_removes_every_layer l core r :
  forallb (mem_char quote_chars) l = true ->
  forallb (mem_char quote_chars) r = true ->
  starts_by (mem_char quote_chars) core = false ->
  ends_by (mem_char quote_chars) core = false ->
  strip_quotes (l ++ core ++ r) = core.
Proof. apply strip_by_wrapped. Qed.

Lemma strip_quotes_removes_every_layer_witness :
  strip_quotes (py "'''" ++ py "SELECT 1" ++ [34; 39]) = py "SELECT 1".
Proof. apply strip_quotes_removes_every_layer; reflexivity. Defined.

(** (C3, as stated) Of two layers of quotes the step does not leave the
    inner one. *)
Lemma strip_quotes_two_layers :
  strip_quotes (py "''SELECT 1''") = py "SELECT 1"
  /\ strip_quotes (py "''SELECT 1''") <> py "'SELECT 1'".
Proof. split; [reflexivity|discriminate]. Qed.

(** (C1, as stated) A second pass changes the output of the first. *)
Lemma sanitize_not_idempotent :
  sanitize latin1_to_upper (sanitize latin1_to_upper (py "'SELECT 1';"))
  <> sanitize latin1_to_upper (py "'SELECT 1';").
Proof. vm_compute. discriminate. Qed.

Lemma sanitize_idempotent_on_settled_output_witness :
  sanitize latin1_to_upper
    (sanitize latin1_to_upper (py "Here it is: select * from t;"))
  = sanitize latin1_to_upper (py "Here it is: select * from t;").
Proof.
  apply sanitize_idempotent_on_settled_output;
    [repeat constructor|reflexivity|reflexivity|reflexivity].
Defined.

(** (C4, as stated) A text without SELECT is not returned as it came. *)
Lemma sanitize_changes_text_without_select :
  contains SELECT (upper latin1_to_upper (py "hello;")) = false
  /\ sanitize latin1_to_upper (py "hello;") <> py "hello;".
Proof. split; [reflexivity|vm_compute; discriminate]. Qed.

Lemma sanitize_without_select_witness :
  sanitize latin1_to_upper (py " 'no query' ")
  = remove_semicolon_at_end (strip_quotes (remove_fences (py " 'no query' "))).
Proof.
  apply (sanitize_without_select latin1_to_upper (py " 'no query' ")).
  reflexivity.
Defined.

(** (C2) On a tail that interleaves semicolons and white space the output
    still ends with a semicolon. *)
Theorem sanitize_leaves_semicolon :
  sanitize latin1_to_upper (py "SELECT 1; ;") = py "SELECT 1;"
  /\ ends_by (mem_char semicolon) (sanitize latin1_to_upper (py "SELECT 1; ;"))
     = true.
Proof. split; reflexivity. Qed.

(** (C5) When a character before SELECT has a longer uppercase, the index
    found in the upper-cased copy is too far to the right in the text: with
    U+00DF in the commentary the output begins one character late. *)
Theorem sanitize_cut_misplaced :
  sanitize latin1_to_upper (py "Ma" ++ [223] ++ py "e: SELECT 1")
  = py "ELECT 1"
  /\ startswith SELECT
       (upper latin1_to_upper
          (sanitize latin1_to_upper (py "Ma" ++ [223] ++ py "e: SELECT 1")))
     = false.
Proof. split; reflexivity. Qed.

(** *** The model selector *)

Lemma first_containing_In preferred available m :
  first_containing preferred available = Some m -> In m available.
Proof.
  induction available as [|a rest IH]; simpl; [done|].
  destruct (contains preferred a); [intros [= ->]; by left|].
  intros H. right. auto.
Qed.

Lemma find_preferred_In preferred available m :
  find_preferred preferred available = Some m -> In m available.
Proof.
  induction preferred as [|p rest IH]; simpl; [done|].
  destruct (first_containing p available) eqn:E; [|done].
  intros [= <-]. by apply first_containing_In with p.
Qed.

Lemma select_model_In available m :
  select_model available = Some m -> In m available.
Proof.
  unfold select_model.
  destruct (find_preferred preferred_models available) eqn:E.
  - intros [= <-]. by apply find_preferred_In with preferred_models.
  - destruct available; simpl; [done|]. intros [= ->]. by left.
Qed.

Lemma existsb_is_JStr k methods :
  existsb (is_JStr k) (map JStr methods) = existsb (eq_str k) methods.
Proof. induction methods as [|m rest IH]; simpl; [done|]. by rewrite IH. Qed.

Lemma collect_available_entries entries available :
  collect_available (map entry_json entries) available
  = Returns (available ++ available_of entries).
Proof.
  revert available. induction entries as [|e rest IH]; intros available.
  - simpl. by rewrite app_nil_r.
  - cbn [map collect_available].
    change (model_name_of (entry_json e)) with (Returns (normalized_name e)).
    change (py_get (entry_json e) (py "supportedGenerationMethods") (JArr []))
      with (Returns (JArr (map JStr (entry_methods e)))).
    cbn [bind py_in]. rewrite existsb_is_JStr. fold (capable e).
    rewrite IH. unfold available_of. cbn [List.filter].
    destruct (capable e); [|done]. cbn [map]. by rewrite <- app_assoc.
Qed.

Lemma get_available_model_catalog entries :
  get_available_model (catalog_response entries)
  = Returns (default default_model (select_model (available_of entries))).
Proof.
  unfold get_available_model, catalog_response, get_available_model_try.
  change (200 =? 200)%Z with true. cbn [bind].
  change (py_in (py "models") _) with (Returns true). cbn [bind].
  change (getitem_key _ (py "models"))
    with (Returns (JArr (map entry_json entries))).
  cbn [bind py_iter]. rewrite collect_available_entries. cbn [bind app try_except].
  by destruct (select_model (available_of entries)).
Qed.

(** A name in the provider's form, or a bare one, comes out bare. *)
Lemma normalize_provider_name base :
  contains models_prefix base = false ->
  replace models_prefix [] (models_prefix ++ base) = base
  /\ replace models_prefix [] base = base.
Proof.
  intros H. split; [|by apply replace_absent].
  rewrite replace_leading by done. by apply replace_absent.
Qed.



(** (C10, amended) Before the preference matching, every occurrence of
    [models/] is deleted from an entry's name, not only a leading one.  The
    model returned for a well-formed catalog is the default or the name so
    normalized of a capable entry; when every name is [models/] followed by
    a base in which [models/] does not occur, or is such a base, the model
    returned does not begin with [models/]. *)
Theorem returned_model_is_normalized entries model :
  get_available_model (catalog_response entries) = Returns model ->
  (model = default_model
   \/ exists e, In e entries /\ capable e = true
                /\ model = replace models_prefix [] (entry_name e))
  /\ ((forall e, In e entries ->
         exists base, contains models_prefix base = false
                      /\ (entry_name e = models_prefix ++ base
                          \/ entry_name e = base)) ->
      startswith models_prefix model = false).
Proof.
  rewrite get_available_model_catalog. intros [= <-].
  assert (default default_model (select_model (available_of entries))
          = default_model
          \/ exists e, In e entries /\ capable e = true
               /\ default default_model (select_model (available_of entries))
                  = replace models_prefix [] (entry_name e)) as H.
  { destruct (select_model (available_of entries)) as [m|] eqn:E; [|by left].
    right. apply select_model_In in E. unfold available_of in E.
    apply in_map_iff in E as (e & <- & He).
    apply filter_In in He as [He Hc]. by exists e. }
  split; [done|]. intros Hnames.
  destruct H as [-> | (e & He & _ & ->)]; [done|].
  destruct (Hnames e He) as (base & Hb & [-> | ->]).
  - rewrite (proj1 (normalize_provider_name base Hb)).
    by apply contains_false_startswith.
  - rewrite (proj2 (normalize_provider_name base Hb)).
    by apply contains_false_startswith.
Qed.

Lemma returned_model_is_normalized_witness :
  startswith models_prefix (py "gemini-pro") = false.
Proof.
  apply (returned_model_is_normalized
           [Entry (py "models/gemini-pro") [py "generateContent"]]
           (py "gemini-pro")); [reflexivity|].
  intros e [<- | []]. exists (py "gemini-pro"). split; [reflexivity|by left].
Defined.

(** (C10, as stated) A name in which deleting one occurrence brings another
    together keeps the prefix: the model returned begins with [models/]. *)
Lemma returned_model_keeps_prefix :
  get_available_model
    (catalog_response
       [Entry (py "modmodels/els/gemini-pro") [py "generateContent"]])
  = Returns (py "models/gemini-pro")
  /\ startswith models_prefix (py "models/gemini-pro") = true.
Proof. split; reflexivity. Qed.

(** *** The completion client *)

Lemma candidate_text_Some result sql_query :
  candidate_text result = Returns (Some sql_query) ->
  exists candidates n,
    getitem_key result (py "candidates") = Returns candidates
    /\ py_len candidates = Returns n /\ (0 < n)%nat.
Proof.
  unfold candidate_text.
  destruct (py_in (py "candidates") result) as [[|]|e]; try discriminate.
  cbn [bind].
  destruct (getitem_key result (py "candidates")) as [candidates|e];
    [|discriminate].
  cbn [bind]. destruct (py_len candidates) as [n|e] eqn:Hn; [|discriminate].
  cbn [bind]. destruct (Nat.ltb_spec 0 n); [|discriminate].
  intros _. by exists candidates, n.
Qed.

Lemma candidate_text_missing fields :
  dict_lookup (py "candidates") fields = None
  \/ dict_lookup (py "candidates") fields = Some (JArr []) ->
  candidate_text (JObj fields) = Returns None.
Proof.
  unfold candidate_text. cbn [py_in getitem_key]. intros [-> | ->].
  - rewrite bool_decide_eq_false_2; [done|]. by intros [? ?].
  - by rewrite bool_decide_eq_true_2 by eauto.
Qed.

Lemma candidate_text_first fields candidate more_candidates content part
    more_parts t :
  dict_lookup (py "candidates") fields
  = Some (JArr (JObj candidate :: more_candidates)) ->
  dict_lookup (py "content") candidate = Some (JObj content) ->
  dict_lookup (py "parts") content = Some (JArr (JObj part :: more_parts)) ->
  dict_lookup (py "text") part = Some (JStr t) ->
  candidate_text (JObj fields) = Returns (Some (strip t)).
Proof.
  intros Hc Hcontent Hparts Ht. unfold candidate_text.
  cbn [bind py_in getitem_key]. rewrite Hc. cbn [bind].
  rewrite bool_decide_eq_true_2 by eauto.
  cbn [py_len length Nat.ltb Nat.leb bind getitem_0 getitem_key].
  rewrite Hcontent. cbn [bind getitem_key]. rewrite Hparts.
  cbn [bind getitem_0 getitem_key]. rewrite Ht. reflexivity.
Qed.

Section CompletionFacts.
Variable up : code_point -> str.
Variable exn_str : exn -> str.

(** Every call ends at one of the five [return] statements, with the string
  that statement builds. *)
Lemma generate_sql_query_cases response :
(exists status_code text body,
   response = HttpResponse status_code text body /\ status_code <> 200%Z
   /\ generate_sql_query_at up exn_str response
      = Returns (ApiStatusError,
                 py "API Error " ++ str_of_Z status_code ++ py ": " ++ text))
\/ generate_sql_query_at up exn_str response
   = Returns (NoCandidates, py "Error: No response generated")
\/ (exists text result sql_query,
      response = HttpResponse 200 text (Returns result)
      /\ candidate_text result = Returns (Some sql_query)
      /\ generate_sql_query_at up exn_str response
         = Returns (QueryText, sanitize up sql_query))
\/ (exists e,
      generate_sql_query_try up response = Raises e
      /\ is_RequestException e = true
      /\ generate_sql_query_at up exn_str response
         = Returns (NetworkError, py "Network error: " ++ exn_str e))
\/ (exists e,
      generate_sql_query_try up response = Raises e
      /\ is_RequestException e = false
      /\ generate_sql_query_at up exn_str response
         = Returns (UnknownError, py "Error generating query: " ++ exn_str e)).
Proof.
assert (forall e, generate_sql_query_try up response = Raises e ->
          (is_RequestException e = true
           /\ generate_sql_query_at up exn_str response
              = Returns (NetworkError, py "Network error: " ++ exn_str e))
          \/ (is_RequestException e = false
              /\ generate_sql_query_at up exn_str response
                 = Returns (UnknownError,
                            py "Error generating query: " ++ exn_str e)))
  as Hraise.
{ intros e He. unfold generate_sql_query_at. rewrite He.
  destruct (is_RequestException e); [by left|by right]. }
assert (forall e, generate_sql_query_try up response = Raises e ->
          (exists e,
             generate_sql_query_try up response = Raises e
             /\ is_RequestException e = true
             /\ generate_sql_query_at up exn_str response
                = Returns (NetworkError, py "Network error: " ++ exn_str e))
          \/ (exists e,
                generate_sql_query_try up response = Raises e
                /\ is_RequestException e = false
                /\ generate_sql_query_at up exn_str response
                   = Returns (UnknownError,
                              py "Error generating query: " ++ exn_str e)))
  as Hexn.
{ intros e He. destruct (Hraise e He) as [[? ?]|[? ?]];
    [left|right]; exists e; eauto. }
destruct response as [e|status_code text body].
{ right. right. right. by apply (Hexn e). }
destruct (Z.eqb_spec status_code 200) as [->|Hne].
- destruct body as [result|e]; [|right; right; right; by apply (Hexn e)].
  destruct (candidate_text result) as [[sql_query|]|e] eqn:E.
  + right. right. left. exists text, result, sql_query.
    repeat split; [done|].
    unfold generate_sql_query_at, generate_sql_query_try.
    change (negb (200 =? 200)%Z) with false. cbn [bind]. by rewrite E.
  + right. left.
    unfold generate_sql_query_at, generate_sql_query_try.
    change (negb (200 =? 200)%Z) with false. cbn [bind]. by rewrite E.
  + right. right. right. apply (Hexn e). unfold generate_sql_query_try.
    change (negb (200 =? 200)%Z) with false. cbn [bind]. by rewrite E.
- left. exists status_code, text, body. repeat split; [done|].
  unfold generate_sql_query_at, generate_sql_query_try.
  by rewrite (proj2 (Z.eqb_neq _ _) Hne).
Qed.

(** The caller's test accepts each of the four error strings. *)
Lemma is_error_result_api x : is_error_result (py "API Error " ++ x) = true.
Proof. reflexivity. Qed.

Lemma is_error_result_none :
is_error_result (py "Error: No response generated") = true.
Proof. reflexivity. Qed.

Lemma is_error_result_network x :
is_error_result (py "Network error: " ++ x) = true.
Proof. reflexivity. Qed.

Lemma is_error_result_unknown x :
is_error_result (py "Error generating query: " ++ x) = true.
Proof. reflexivity. Qed.

(** (C8, amended) For status 200 with a first candidate that holds a text,
    the text is returned, stripped and cleaned up, and a cleaned-up text is
    returned only for status 200 with a candidate list that is not empty.
    Otherwise an error string is returned: for another status one that
    holds the status code and the body, for a missing or empty candidate
    list the no-response message, for a request exception the network error
    with its detail, for any other exception the generic error with its
    detail.  Nothing is raised; the caller's test recognises each error
    string, and then the caller prints it and executes nothing; the kind of
    error can be read off the string, so that the four kinds differ from
    one another.  An error string is told from a completion by its first
    characters only: a cleaned-up text that the caller's test does not take
    for an error differs from every error string, and one that it does take
    for an error is printed and not executed. *)
Theorem generate_sql_query_results :
(forall status_code text body,
   status_code <> 200%Z ->
   generate_sql_query_at up exn_str (HttpResponse status_code text body)
   = Returns (ApiStatusError,
              py "API Error " ++ str_of_Z status_code ++ py ": " ++ text))
/\ (forall text fields,
      dict_lookup (py "candidates") fields = None
      \/ dict_lookup (py "candidates") fields = Some (JArr []) ->
      generate_sql_query_at up exn_str
        (HttpResponse 200 text (Returns (JObj fields)))
      = Returns (NoCandidates, py "Error: No response generated"))
/\ (forall response e,
      generate_sql_query_try up response = Raises e ->
      generate_sql_query_at up exn_str response
      = if is_RequestException e
        then Returns (NetworkError, py "Network error: " ++ exn_str e)
        else Returns (UnknownError,
                      py "Error generating query: " ++ exn_str e))
/\ (forall response s,
      generate_sql_query_at up exn_str response = Returns (QueryText, s) ->
      exists text result candidates n sql_query,
        response = HttpResponse 200 text (Returns result)
        /\ getitem_key result (py "candidates") = Returns candidates
        /\ py_len candidates = Returns n /\ (0 < n)%nat
        /\ candidate_text result = Returns (Some sql_query)
        /\ s = sanitize up sql_query)
/\ (forall response,
      exists site s,
        generate_sql_query_at up exn_str response = Returns (site, s))
/\ (forall response site s execute,
      generate_sql_query_at up exn_str response = Returns (site, s) ->
      site <> QueryText ->
      is_error_result s = true /\ main_step s execute = [PrintError s])
/\ (forall response site s,
      generate_sql_query_at up exn_str response = Returns (site, s) ->
      site <> QueryText -> error_kind s = Some site)
/\ (forall text fields candidate more_candidates content part more_parts t,
      dict_lookup (py "candidates") fields
      = Some (JArr (JObj candidate :: more_candidates)) ->
      dict_lookup (py "content") candidate = Some (JObj content) ->
      dict_lookup (py "parts") content
      = Some (JArr (JObj part :: more_parts)) ->
      dict_lookup (py "text") part = Some (JStr t) ->
      generate_sql_query_at up exn_str
        (HttpResponse 200 text (Returns (JObj fields)))
      = Returns (QueryText, sanitize up (strip t)))
/\ (forall response1 response2 site s1 s2,
      generate_sql_query_at up exn_str response1 = Returns (QueryText, s1) ->
      generate_sql_query_at up exn_str response2 = Returns (site, s2) ->
      site <> QueryText -> is_error_result s1 = false -> s1 <> s2)
/\ (forall s execute,
      is_error_result s = true -> main_step s execute = [PrintError s]).
Proof.
assert (forall response site s,
          generate_sql_query_at up exn_str response = Returns (site, s) ->
          site <> QueryText -> is_error_result s = true) as Hflag.
{ intros response site s H Hsite.
  destruct (generate_sql_query_cases response)
    as [(st & text & body & -> & Hne & Hr)
       |[Hr|[(text & result & q & -> & Hq & Hr)
       |[(e & _ & _ & Hr)|(e & _ & _ & Hr)]]]];
    rewrite Hr in H; injection H as <- <-; try done. }
repeat apply conj.
- intros status_code text body Hne.
  unfold generate_sql_query_at, generate_sql_query_try.
  by rewrite (proj2 (Z.eqb_neq _ _) Hne).
- intros text fields H.
  unfold generate_sql_query_at, generate_sql_query_try.
  change (negb (200 =? 200)%Z) with false. cbn [bind].
  by rewrite (candidate_text_missing _ H).
- intros response e He. unfold generate_sql_query_at. by rewrite He.
- intros response s H.
  destruct (generate_sql_query_cases response)
    as [(st & text & body & -> & Hne & Hr)
       |[Hr|[(text & result & q & -> & Hq & Hr)
       |[(e & _ & _ & Hr)|(e & _ & _ & Hr)]]]];
    rewrite Hr in H; try discriminate H.
  injection H as <-.
  destruct (candidate_text_Some _ _ Hq) as (candidates & n & Hc & Hn & Hpos).
  by exists text, result, candidates, n, q.
- intros response.
  destruct (generate_sql_query_cases response)
    as [(st & text & body & -> & Hne & Hr)
       |[Hr|[(text & result & q & -> & Hq & Hr)
       |[(e & _ & _ & Hr)|(e & _ & _ & Hr)]]]];
    rewrite Hr; eauto.
- intros response site s execute H Hsite.
  pose proof (Hflag response site s H Hsite) as Herr.
  split; [done|]. unfold main_step. by rewrite Herr.
- intros response site s H Hsite.
  destruct (generate_sql_query_cases response)
    as [(st & text & body & -> & Hne & Hr)
       |[Hr|[(text & result & q & -> & Hq & Hr)
       |[(e & _ & _ & Hr)|(e & _ & _ & Hr)]]]];
    rewrite Hr in H; injection H as <- <-; done.
- intros text fields candidate more_candidates content part more_parts t
    Hc Hcontent Hparts Ht.
  unfold generate_sql_query_at, generate_sql_query_try.
  change (negb (200 =? 200)%Z) with false. cbn [bind].
  by rewrite (candidate_text_first _ _ _ _ _ _ _ Hc Hcontent Hparts Ht).
- intros response1 response2 site s1 s2 _ H2 Hsite Hclean Heq.
  pose proof (Hflag response2 site s2 H2 Hsite) as Herr. congruence.
- intros s execute Herr. unfold main_step. by rewrite Herr.
Qed.
End CompletionFacts.

(** (C8, as stated) The string returned for a completion can be the very
    string returned for an empty candidate list: the result does not tell
    the error from the text. *)
Lemma completion_equals_error_result :
  generate_sql_query_at latin1_to_upper exn_origin
    (HttpResponse 200 []
       (Returns (JObj
          [ (py "candidates",
             JArr [ JObj [ (py "content",
               JObj [ (py "parts",
                       JArr [JObj [(py "text",
                          JStr (py "Error: No response generated"))]]) ]) ] ]) ])))
  = Returns (QueryText, py "Error: No response generated")
  /\ generate_sql_query_at latin1_to_upper exn_origin
       (HttpResponse 200 [] (Returns (JObj [(py "candidates", JArr [])])))
     = Returns (NoCandidates, py "Error: No response generated")
  /\ generate_sql_query latin1_to_upper exn_origin
       (HttpResponse 200 []
          (Returns (JObj
             [ (py "candidates",
                JArr [ JObj [ (py "content",
                  JObj [ (py "parts",
                          JArr [JObj [(py "text",
                             JStr (py "Error: No response generated"))]]) ]) ] ]) ])))
     = generate_sql_query latin1_to_upper exn_origin
         (HttpResponse 200 [] (Returns (JObj [(py "candidates", JArr [])]))).
Proof. repeat apply conj; reflexivity. Qed.

Lemma generate_sql_query_results_witness :
  generate_sql_query_at latin1_to_upper exn_origin
    (HttpResponse 404 (py "Not Found") (Raises (Exn ValueError [])))
  = Returns (ApiStatusError, py "API Error 404: Not Found").
Proof.
  apply (proj1 (generate_sql_query_results latin1_to_upper exn_origin)). lia.
Defined.

(** *** The database calls *)

Section DatabaseFacts.
Variable exn_str : exn -> str.

Lemma describe_tables_resources srv tables schema st :
snd (describe_tables srv tables schema st) = st.
Proof.
revert schema. induction tables as [|row rest IH]; intros schema; [done|].
cbn [describe_tables]. unfold bindM, lift, execute.
destruct (unpack1 row) as [table_name|e]; [|done].
destruct (srv_execute srv _) as [[rs|[columns|e]]|e]; try done.
- unfold fetchall, retM, lift.
  destruct (describe_columns (rs_rows rs) _) as [schema'|e]; [|done].
  apply IH.
- unfold fetchall, retM, lift.
  destruct (describe_columns columns _) as [schema'|e]; [|done].
  apply IH.
Qed.

(** (X15) When the body of [get_database_schema] runs to its end, what it
    opened is closed again. *)
Lemma get_database_schema_releases_on_success srv st schema st' :
get_database_schema_try srv st = (Returns schema, st') -> st' = st.
Proof.
unfold get_database_schema_try, bindM, connect, cursor, execute, lift.
destruct (srv_connect srv); [done|].
assert (forall tables st1,
          st1 = Resources (S (open_connections st)) (S (open_cursors st)) ->
          (let (o, st2) := describe_tables srv tables [] st1 in
           match o with
           | Returns a =>
               (_ <~ cursor_close ;; _ <~ conn_close ;; retM (join [10] a)) st2
           | Raises e => (Raises e, st2)
           end) = (Returns schema, st') -> st' = st) as Hloop.
{ intros tables st1 ->.
  set (st1 := Resources _ _).
  pose proof (describe_tables_resources srv tables [] st1) as Hd.
  destruct (describe_tables srv tables [] st1) as [[schema'|e] st2]; [|done].
  simpl in Hd. subst st2. unfold bindM, cursor_close, conn_close, st1. simpl.
  intros [= _ <-]. by destruct st. }
destruct (srv_execute srv _) as [[rs|[tables|e]]|e]; cbn [fetchall retM];
  try done.
- by apply Hloop.
- unfold lift. by apply Hloop.
Qed.

(** (X14) When [execute_query] returns column names and rows, what it
    opened is closed again. *)
Lemma execute_query_releases_on_success srv sql_query st column_names results st' :
execute_query exn_str srv sql_query st
= (Returns (QueryOk column_names results), st') ->
st' = st.
Proof.
unfold execute_query, try_exceptM, execute_query_try, bindM, connect,
  cursor, execute, lift.
destruct (srv_connect srv) as [e|].
{ destruct (is_DatabaseError e); [|done]. unfold retM. by intros [=]. }
destruct (srv_execute srv sql_query) as [[rs|[rows|e]]|e];
  cbn [fetchall description retM cursor_close conn_close].
- simpl. intros [= _ _ <-]. by destruct st.
- simpl. by intros [=].
- unfold lift. destruct (is_DatabaseError e); [|done]. unfold retM.
  by intros [=].
- destruct (is_DatabaseError e); [|done]. unfold retM. by intros [=].
Qed.

(** (X16) When the statement is rejected with a database error, the handler
    returns the message and the connection and the cursor stay open. *)
Lemma execute_query_holds_on_error srv sql_query e st :
srv_connect srv = None ->
srv_execute srv sql_query = Raises e ->
is_DatabaseError e = true ->
execute_query exn_str srv sql_query st
= (Returns (QueryFailed (py "Error executing query: " ++ exn_str e)),
   Resources (S (open_connections st)) (S (open_cursors st))).
Proof.
intros Hc He Hdb.
unfold execute_query, try_exceptM, execute_query_try, bindM, connect,
  cursor, execute, lift.
rewrite Hc, He. simpl. by rewrite Hdb.
Qed.

(** (C6) When the server rejects the statement, [execute_query] and
  [get_database_schema] return their error message while the connection
  and the cursor they opened are still open. *)
Theorem database_error_leaves_resources_open sql_query :
execute_query exn_str rejecting_server sql_query idle
= (Returns (QueryFailed
              (py "Error executing query: "
               ++ exn_str (Exn DatabaseError (py "execute")))),
   Resources 1 1)
/\ get_database_schema exn_str rejecting_server idle
   = (Returns (py "Error getting schema: "
               ++ exn_str (Exn DatabaseError (py "execute"))),
      Resources 1 1).
Proof. split; reflexivity. Qed.
End DatabaseFacts.

(** *** The result formatter *)

Section FormatterFacts.
Context {cell : Type}.
Variable py_str : cell -> str.

Lemma lookup_map_length (names : list str) j name :
names !! j = Some name ->
map (fun name => length name) names !! j = Some (length name).
Proof.
revert j. induction names as [|n names IH]; intros [|j]; simpl; try done.
- by intros [= ->].
- apply IH.
Qed.

Lemma widen_row_lookup row :
forall widths i,
  (i + length row <= length widths)%nat ->
  exists widths',
    widen_row py_str widths i row = Returns widths'
    /\ length widths' = length widths
    /\ forall j, widths' !! j
         = if decide (i <= j)%nat
           then widen_cell py_str row (j - i) <$> widths !! j
           else widths !! j.
Proof.
induction row as [|val rest IH]; intros widths i Hlen.
- exists widths. split; [done|]. split; [done|]. intros j.
  destruct (decide (i <= j)%nat); [|done].
  unfold widen_cell. rewrite lookup_nil. by destruct (widths !! j).
- simpl in Hlen. cbn [widen_row].
  destruct (lookup_lt_is_Some_2 widths i ltac:(lia)) as [w Hw]. rewrite Hw.
  destruct (IH (<[i := Nat.max w (length (py_str val))]> widths) (S i))
    as (widths' & Hrun & Hlen' & Hlook).
  { rewrite length_insert. lia. }
  exists widths'. rewrite length_insert in Hlen'.
  split; [done|]. split; [done|]. intros j. rewrite Hlook.
  destruct (decide (S i <= j)%nat) as [Hj|Hj].
  + rewrite list_lookup_insert_ne by lia.
    destruct (decide (i <= j)%nat); [|lia].
    unfold widen_cell. replace (j - i)%nat with (S (j - S i)) by lia.
    done.
  + destruct (decide (i <= j)%nat) as [Hij|Hij].
    * assert (j = i) as -> by lia.
      rewrite list_lookup_insert_eq by lia. rewrite Hw.
      unfold widen_cell. by rewrite Nat.sub_diag.
    * by rewrite list_lookup_insert_ne by lia.
Qed.

Lemma widen_row_fails row :
forall widths i,
  (i <= length widths)%nat ->
  (length widths < i + length row)%nat ->
  widen_row py_str widths i row = Raises (Exn IndexError (py "getitem")).
Proof.
induction row as [|val rest IH]; intros widths i Hi Hlen; simpl in Hlen.
- lia.
- cbn [widen_row]. destruct (widths !! i) as [w|] eqn:Hw; [|done].
  apply lookup_lt_Some in Hw.
  apply IH; rewrite length_insert; lia.
Qed.

Lemma widen_rows_lookup results :
forall widths,
  Forall (fun row : list cell => (length row <= length widths)%nat) results ->
  exists widths',
    widen_rows py_str widths results = Returns widths'
    /\ length widths' = length widths
    /\ forall j, widths' !! j
         = (fun w => foldl (fun w row => widen_cell py_str row j w) w results)
           <$> widths !! j.
Proof.
induction results as [|row rest IH]; intros widths Hall.
- exists widths. split; [done|]. split; [done|].
  intros j. by destruct (widths !! j).
- apply Forall_cons in Hall as [Hrow Hrest]. cbn [widen_rows].
  destruct (widen_row_lookup row widths 0 ltac:(lia))
    as (widths1 & Hrun1 & Hlen1 & Hlook1).
  rewrite Hrun1. cbn [bind].
  destruct (IH widths1) as (widths' & Hrun & Hlen & Hlook).
  { by rewrite Hlen1. }
  exists widths'. split; [done|]. split; [congruence|].
  intros j. rewrite Hlook, Hlook1.
  destruct (decide (0 <= j)%nat); [|lia]. rewrite Nat.sub_0_r.
  by destruct (widths !! j).
Qed.

Lemma widen_rows_fails results :
forall widths,
  Exists (fun row : list cell => (length widths < length row)%nat) results ->
  widen_rows py_str widths results = Raises (Exn IndexError (py "getitem")).
Proof.
induction results as [|row rest IH]; intros widths Hex.
- by apply Exists_nil in Hex.
- cbn [widen_rows].
  destruct (decide (length widths < length row)%nat) as [Hlong|Hshort].
  + by rewrite widen_row_fails by lia.
  + destruct (widen_row_lookup row widths 0 ltac:(lia))
      as (widths1 & Hrun1 & Hlen1 & _).
    rewrite Hrun1. cbn [bind]. apply IH. rewrite Hlen1.
    apply Exists_cons in Hex as [Hex|Hex]; [lia|done].
Qed.

Lemma foldl_widen_is_max (results : list (list cell)) j :
forall w0 : nat,
  let w := foldl (fun w row => widen_cell py_str row j w) w0 results in
  (w0 <= w)%nat
  /\ (forall row val, In row results -> row !! j = Some val ->
        (length (py_str val) <= w)%nat)
  /\ (w = w0 \/ exists row val, In row results /\ row !! j = Some val
                                /\ w = length (py_str val)).
Proof.
induction results as [|row rest IH]; intros w0; cbn zeta.
- simpl. split; [done|]. split; [by intros ? ? []|by left].
- cbn [foldl].
  set (w1 := widen_cell py_str row j w0).
  assert (w0 <= w1)%nat as Hle.
  { unfold w1, widen_cell. destruct (row !! j); lia. }
  destruct (IH w1) as (H1 & H2 & H3).
  cbn zeta in *. split; [|split].
  + lia.
  + intros row' val [<-|Hin] Hval; [|by apply (H2 row')].
    assert (length (py_str val) <= w1)%nat; [|lia].
    unfold w1, widen_cell. rewrite Hval. lia.
  + destruct H3 as [H3|(row' & val & Hin & Hval & H3)].
    * rewrite H3. unfold w1, widen_cell.
      destruct (row !! j) as [val|] eqn:Hval; [|by left].
      destruct (Nat.max_spec w0 (length (py_str val))) as [[_ ->]|[_ ->]];
        [|by left].
      right. exists row, val. split; [by left|done].
    * right. exists row', val. split; [by right|done].
Qed.

Lemma ljust_each_ok {A} (to_str : A -> str) widths items :
forall i,
  (i + length items <= length widths)%nat ->
  exists cells, ljust_each to_str widths i items = Returns cells.
Proof.
induction items as [|x rest IH]; intros i Hlen; [by exists []|].
simpl in Hlen. cbn [ljust_each].
destruct (lookup_lt_is_Some_2 widths i ltac:(lia)) as [w ->].
destruct (IH (S i) ltac:(lia)) as [cells ->]. cbn [bind]. eauto.
Qed.

Lemma format_rows_ok widths results :
Forall (fun row : list cell => (length row <= length widths)%nat) results ->
exists rows, format_rows py_str widths results = Returns rows.
Proof.
induction 1 as [|row rest Hrow Hrest [rows IH]]; [by exists []|].
cbn [format_rows].
destruct (ljust_each_ok py_str widths row 0 ltac:(lia)) as [cells ->].
cbn [bind]. rewrite IH. cbn [bind]. eauto.
Qed.

(** (C9) When there is at least one row and no row has more cells than
  there are column names, [format_results] returns a table, and the width
  computed for each column is the largest of the header's length and the
  lengths of the stringified cells of that column.  When some row has more
  cells than there are column names, the width computation raises
  [IndexError], and so does [format_results]. *)
Theorem format_results_widths :
(forall column_names results,
   results <> [] ->
   Forall (fun row : list cell => (length row <= length column_names)%nat)
          results ->
   exists widths out,
     compute_widths py_str column_names results = Returns widths
     /\ format_results py_str column_names results = Returns out
     /\ length widths = length column_names
     /\ forall j name,
          column_names !! j = Some name ->
          exists w, widths !! j = Some w
                    /\ is_column_width py_str name results j w)
/\ (forall column_names results,
      Exists (fun row : list cell => (length column_names < length row)%nat)
             results ->
      compute_widths py_str column_names results
      = Raises (Exn IndexError (py "getitem"))
      /\ format_results py_str column_names results
         = Raises (Exn IndexError (py "getitem"))).
Proof.
split.
- intros column_names results Hne Hall.
  destruct results as [|row0 rest0]; [done|].
  set (results := row0 :: rest0) in *.
  set (widths0 := map (fun name : str => length name) column_names).
  assert (length widths0 = length column_names) as Hlen0.
  { apply length_map. }
  destruct (widen_rows_lookup results widths0) as (widths & Hrun & Hlen & Hlook).
  { by rewrite Hlen0. }
  destruct (ljust_each_ok (fun name : str => name) widths column_names 0)
    as [names Hnames]; [lia|].
  destruct (format_rows_ok widths results) as [rows Hrows].
  { by rewrite Hlen, Hlen0. }
  exists widths. eexists. split; [exact Hrun|]. split; [|split].
  + change (widen_rows py_str widths0 results)
      with (compute_widths py_str column_names results) in Hrun.
    unfold format_results. fold results.
    rewrite Hrun. cbn [bind]. rewrite Hnames. cbn [bind].
    rewrite Hrows. cbn [bind]. reflexivity.
  + congruence.
  + intros j name Hj. eexists. split.
    * assert (widths0 !! j = Some (length name)) as Hw0.
      { by apply lookup_map_length. }
      rewrite Hlook, Hw0. reflexivity.
    * destruct (foldl_widen_is_max results j (length name))
        as (H1 & H2 & H3). cbn zeta in *.
      unfold is_column_width. split; [done|]. split; done.
- intros column_names results Hex.
  assert (compute_widths py_str column_names results
          = Raises (Exn IndexError (py "getitem"))) as Hw.
  { unfold compute_widths. apply widen_rows_fails.
    by rewrite length_map. }
  split; [done|]. unfold format_results.
  destruct results as [|row rest]; [by apply Exists_nil in Hex|].
  by rewrite Hw.
Qed.
End FormatterFacts.

Lemma format_results_widths_witness :
  exists widths out,
    compute_widths cell_str [py "id"; py "name"]
      [[CInt 1; CStr (py "Al")]; [CInt 22; CStr (py "Bob")]] = Returns widths
    /\ format_results cell_str [py "id"; py "name"]
         [[CInt 1; CStr (py "Al")]; [CInt 22; CStr (py "Bob")]] = Returns out
    /\ length widths = 2%nat.
Proof.
  destruct (proj1 (format_results_widths cell_str) [py "id"; py "name"]
              [[CInt 1; CStr (py "Al")]; [CInt 22; CStr (py "Bob")]])
    as (widths & out & Hw & Hout & Hlen & _).
  - discriminate.
  - repeat constructor.
  - by exists widths, out.
Defined.

Example format_results_table :
  format_results cell_str [py "id"; py "name"]
    [[CInt 1; CStr (py "Al")]; [CInt 22; CStr (py "Bob")]]
  = Returns ([10] ++ py "id | name" ++ [10] ++ py "---+-----" ++ [10]
             ++ py "1  | Al  " ++ [10] ++ py "22 | Bob ").
Proof. reflexivity. Qed.

Example format_results_long_row :
  format_results cell_str [py "id"]
    [[CInt 1; CStr (py "Al")]] = Raises (Exn IndexError (py "getitem")).
Proof. reflexivity. Qed.

(** ** Part III. Further properties of the code *)

(** *** The clean-up *)

Lemma replace_from_sublist old k s : sublist (replace_from old [] k s) s.
Proof.
  revert k. induction s as [|c s IH]; intros k; simpl; [constructor|].
  destruct k; [|apply sublist_cons, IH].
  destruct (startswith old (c :: s)); simpl.
  - apply sublist_cons, IH.
  - apply sublist_skip, IH.
Qed.

Lemma segment_of_sublist x s : segment_of x s -> sublist x s.
Proof.
  intros (a & b & ->). apply sublist_inserts_l, sublist_inserts_r. done.
Qed.

Lemma remove_fences_sublist t : sublist (remove_fences t) t.
Proof.
  transitivity (replace fence [] (replace fence_sql [] t)).
  - apply segment_of_sublist, remove_fences_segment.
  - transitivity (replace fence_sql [] t); apply replace_from_sublist.
Qed.

(** (X1) Whatever the text, the output of the clean-up holds no fence
    marker, neither the bare one nor the one tagged [sql]. *)
Theorem sanitize_output_has_no_fence up t :
  contains fence (sanitize up t) = false
  /\ contains fence_sql (sanitize up t) = false.
Proof.
  pose proof (sanitize_no_fence up t) as H. split; [done|].
  rewrite fence_sql_longer. by apply contains_longer.
Qed.

(** (X2) Whatever the text, the output of the clean-up neither begins nor
    ends with white space: stripping it again changes nothing. *)
Theorem sanitize_output_is_trimmed up t :
  starts_by is_space (sanitize up t) = false
  /\ ends_by is_space (sanitize up t) = false
  /\ strip (sanitize up t) = sanitize up t.
Proof.
  destruct (sanitize_trimmed up t) as [Hs He].
  split; [done|]. split; [done|]. by apply strip_by_id.
Qed.

(** (X3) The clean-up only deletes: its output is the raw text with some
    characters left out, in the same order, so it is no longer than the raw
    text and holds no character the raw text does not hold. *)
Theorem sanitize_only_deletes up t :
  sublist (sanitize up t) t
  /\ (length (sanitize up t) <= length t)%nat
  /\ (forall c, In c (sanitize up t) -> In c t).
Proof.
  assert (sublist (sanitize up t) t) as H.
  { transitivity (remove_fences t); [|apply remove_fences_sublist].
    apply segment_of_sublist, sanitize_segment. }
  split; [done|]. split; [by apply sublist_length|].
  intros c Hc. apply list_elem_of_In. eapply elem_of_sublist; [|done].
  by apply list_elem_of_In.
Qed.

(** (X6) A statement that begins with SELECT, in any case, and is settled
    (plain case, no fence marker, no white space, quote or semicolon at the
    end) comes out of the clean-up whole, with whatever follows the first
    statement: nothing is cut at a later semicolon or a later SELECT. *)
Theorem sanitize_keeps_whole_statement up s :
  plain_case up s ->
  startswith SELECT (map ascii_upper s) = true ->
  contains fence s = false ->
  ends_by is_space s = false ->
  ends_by (mem_char quote_chars) s = false ->
  ends_by (mem_char semicolon) s = false ->
  sanitize up s = s.
Proof.
  intros Hp Hsel Hf He Hq Hsemi.
  assert (starts_by is_space s = false
          /\ starts_by (mem_char quote_chars) s = false) as [Hs Hq'].
  { destruct s as [|c s]; [done|]. pose proof Hsel as H.
    rewrite SELECT_chars in H. cbn [map] in H.
    apply startswith_cons in H as [H _].
    destruct (capital_not_stripped c ltac:(lia)) as (? & _ & ?). done. }
  apply sanitize_fixed; try done. by apply cut_at_head.
Qed.

Lemma sanitize_keeps_whole_statement_witness :
  sanitize latin1_to_upper (py "select 1; DROP TABLE t; SELECT 2")
  = py "select 1; DROP TABLE t; SELECT 2".
Proof.
  apply sanitize_keeps_whole_statement;
    [repeat constructor|reflexivity..].
Defined.

Lemma sanitize_starts_at_first_select_witness :
  exists n : nat,
    let q := strip_quotes (remove_fences (py "Here it is: Select 1; SELECT 2;")) in
    startswith SELECT (map ascii_upper (drop n q)) = true
    /\ (forall m : nat, (m < n)%nat ->
          startswith SELECT (map ascii_upper (drop m q)) = false)
    /\ sanitize latin1_to_upper (py "Here it is: Select 1; SELECT 2;")
       = remove_semicolon_at_end (drop n q)
    /\ take 6 (sanitize latin1_to_upper (py "Here it is: Select 1; SELECT 2;"))
       = take 6 (drop n q).
Proof.
  apply (sanitize_starts_at_first_select latin1_to_upper
           (py "Here it is: Select 1; SELECT 2;"));
    [repeat constructor|reflexivity].
Defined.

Lemma sanitize_changes_unsettled_output_witness :
  sanitize latin1_to_upper (sanitize latin1_to_upper (py "SELECT 1; ;"))
  <> sanitize latin1_to_upper (py "SELECT 1; ;").
Proof.
  apply sanitize_changes_unsettled_output. right. right. reflexivity.
Defined.

(** *** The model selector *)

Lemma first_containing_None preferred available :
  (forall a, In a available -> contains preferred a = false) ->
  first_containing preferred available = None.
Proof.
  induction available as [|a rest IH]; intros H; simpl; [done|].
  rewrite (H a) by (by left). apply IH. intros b Hb. apply H. by right.
Qed.

Lemma first_containing_Some preferred available a :
  In a available -> contains preferred a = true ->
  exists m, first_containing preferred available = Some m
            /\ In m available /\ contains preferred m = true.
Proof.
  induction available as [|b rest IH]; intros Hin Ha; [done|]. simpl.
  destruct (contains preferred b) eqn:Hb.
  - exists b. split; [done|]. split; [by left|done].
  - destruct Hin as [->|Hin]; [congruence|].
    destruct (IH Hin Ha) as (m & Hm & Hmin & Hc).
    exists m. split; [done|]. split; [by right|done].
Qed.

Lemma find_preferred_skip before rest available :
  (forall b a, In b before -> In a available -> contains b a = false) ->
  find_preferred (before ++ rest) available = find_preferred rest available.
Proof.
  induction before as [|b before IH]; intros H; simpl; [done|].
  rewrite first_containing_None.
  - apply IH. intros b' a Hb' Ha. apply H; [by right|done].
  - intros a Ha. apply H; [by left|done].
Qed.

(** (X7) The order of the preference list decides, not the order of the
    catalog: when no available model matches an earlier preference and
    some available model matches preference [p], the model selected is the
    first available one that matches [p]. *)
Theorem select_model_follows_preference before p after available a :
  preferred_models = before ++ p :: after ->
  (forall b a', In b before -> In a' available -> contains b a' = false) ->
  In a available -> contains p a = true ->
  exists m, select_model available = Some m
            /\ first_containing p available = Some m
            /\ In m available /\ contains p m = true.
Proof.
  intros Hprefs Hbefore Ha Hp.
  destruct (first_containing_Some p available a Ha Hp) as (m & Hm & Hin & Hc).
  exists m. split; [|done].
  unfold select_model. rewrite Hprefs, find_preferred_skip by done.
  cbn [find_preferred]. by rewrite Hm.
Qed.

Lemma select_model_follows_preference_witness :
  exists m,
    select_model [py "gemini-1.0-pro"; py "gemini-1.5-pro-001"] = Some m
    /\ first_containing (py "gemini-1.5-pro")
         [py "gemini-1.0-pro"; py "gemini-1.5-pro-001"] = Some m
    /\ In m [py "gemini-1.0-pro"; py "gemini-1.5-pro-001"]
    /\ contains (py "gemini-1.5-pro") m = true.
Proof.
  apply (select_model_follows_preference
           [py "gemini-1.5-flash"] (py "gemini-1.5-pro")
           [py "gemini-1.5-flash-latest"; py "gemini-pro"; py "gemini-1.0-pro"]
           _ (py "gemini-1.5-pro-001")).
  - reflexivity.
  - intros b a' [<-|[]] [<-|[<-|[]]]; reflexivity.
  - right. by left.
  - reflexivity.
Defined.

Lemma first_containing_longer p x available :
  first_containing p available = None ->
  first_containing (p ++ x) available = None.
Proof.
  induction available as [|a rest IH]; simpl; [done|].
  destruct (contains p a) eqn:E; [done|].
  rewrite (contains_longer p x a E). apply IH.
Qed.

(** (X8) The third preference, [gemini-1.5-flash-latest], never decides:
    a name that holds it holds the first preference too, so for every
    catalog the selection is the one the list without it gives. *)
Theorem flash_latest_preference_is_redundant available :
  select_model available
  = match find_preferred
            [ py "gemini-1.5-flash"; py "gemini-1.5-pro";
              py "gemini-pro"; py "gemini-1.0-pro" ] available with
    | Some m => Some m
    | None => head available
    end.
Proof.
  unfold select_model, preferred_models. cbn [find_preferred].
  destruct (first_containing (py "gemini-1.5-flash") available) eqn:E1; [done|].
  destruct (first_containing (py "gemini-1.5-pro") available) eqn:E2; [done|].
  change (py "gemini-1.5-flash-latest")
    with (py "gemini-1.5-flash" ++ py "-latest").
  by rewrite (first_containing_longer _ _ _ E1).
Qed.

(** (X9) The default is a last resort: the selection finds no model only in
    an empty list, so for a well-formed catalog with at least one capable
    entry the selector returns one of the capable entries' normalized
    names. *)
Theorem capable_entry_is_selected entries :
  available_of entries <> [] ->
  exists m, get_available_model (catalog_response entries) = Returns m
            /\ In m (available_of entries).
Proof.
  intros Hne. rewrite get_available_model_catalog.
  destruct (select_model (available_of entries)) as [m|] eqn:E.
  - exists m. split; [done|]. by apply select_model_In.
  - exfalso. unfold select_model in E.
    destruct (find_preferred preferred_models (available_of entries));
      [done|].
    by destruct (available_of entries).
Qed.

Lemma capable_entry_is_selected_witness :
  exists m,
    get_available_model
      (catalog_response
         [ Entry (py "models/text-embedding") [py "embedContent"];
           Entry (py "models/chat-bison") [py "generateContent"] ])
    = Returns m
    /\ In m (available_of
               [ Entry (py "models/text-embedding") [py "embedContent"];
                 Entry (py "models/chat-bison") [py "generateContent"] ]).
Proof. apply capable_entry_is_selected. discriminate. Defined.

Lemma collect_available_malformed items :
  Exists (fun item => match item with JObj _ => False | _ => True end) items ->
  forall available, exists e, collect_available items available = Raises e.
Proof.
  induction 1 as [item rest Hbad|item rest Hex IH]; intros available.
  - cbn [collect_available]. unfold model_name_of.
    destruct item; try done; cbn [py_get bind]; eauto.
  - cbn [collect_available].
    destruct (model_name_of item) as [name|e]; cbn [bind]; [|eauto].
    destruct (py_get item _ _) as [methods|e]; cbn [bind]; [|eauto].
    destruct (py_in _ methods) as [capable|e]; cbn [bind]; [|eauto].
    apply IH.
Qed.

(** (X10) One ill-shaped entry discards the whole catalog: when the list
    under [models] holds an item that is not an object, the selector
    returns the default, whatever the other entries are. *)
Theorem malformed_entry_gives_default text fields items :
  dict_lookup (py "models") fields = Some (JArr items) ->
  Exists (fun item => match item with JObj _ => False | _ => True end) items ->
  get_available_model (HttpResponse 200 text (Returns (JObj fields)))
  = Returns default_model.
Proof.
  intros Hm Hbad.
  destruct (collect_available_malformed items Hbad []) as [e He].
  unfold get_available_model, get_available_model_try.
  change (200 =? 200)%Z with true. cbn [bind py_in getitem_key].
  rewrite Hm. cbn [bind]. rewrite bool_decide_eq_true_2 by eauto.
  cbn [bind py_iter]. by rewrite He.
Qed.

Lemma malformed_entry_gives_default_witness :
  get_available_model
    (HttpResponse 200 []
       (Returns (JObj [(py "models",
          JArr [ entry_json (Entry (py "models/gemini-1.5-pro")
                               [py "generateContent"]);
                 JNull ])])))
  = Returns default_model.
Proof.
  eapply malformed_entry_gives_default; [reflexivity|].
  apply Exists_cons_tl, Exists_cons_hd. exact I.
Defined.

(** *** The completion client and its caller *)

Section CompletionMore.
Variable up : code_point -> str.
Variable exn_str : exn -> str.

(** (X11) Of a 200 response only the text of the first part of the first
    candidate is used: whatever other keys, candidates and parts the body
    holds, the result is that text, stripped and cleaned up. *)
Theorem first_candidate_text_is_used
    text fields candidate more_candidates content part more_parts t :
  dict_lookup (py "candidates") fields
  = Some (JArr (JObj candidate :: more_candidates)) ->
  dict_lookup (py "content") candidate = Some (JObj content) ->
  dict_lookup (py "parts") content = Some (JArr (JObj part :: more_parts)) ->
  dict_lookup (py "text") part = Some (JStr t) ->
  generate_sql_query_at up exn_str
    (HttpResponse 200 text (Returns (JObj fields)))
  = Returns (QueryText, sanitize up (strip t)).
Proof.
  intros Hc Hcontent Hparts Ht.
  unfold generate_sql_query_at, generate_sql_query_try, candidate_text.
  change (negb (200 =? 200)%Z) with false.
  cbn [bind py_in getitem_key]. rewrite Hc. cbn [bind].
  rewrite bool_decide_eq_true_2 by eauto.
  cbn [py_len length Nat.ltb Nat.leb bind getitem_0 getitem_key].
  rewrite Hcontent. cbn [bind getitem_key]. rewrite Hparts.
  cbn [bind getitem_0 getitem_key]. rewrite Ht. reflexivity.
Qed.

(** (X12) What the caller offers for execution is always a completion that
    went through the clean-up: a string is executed only when the answer is
    [y], it is the result of the [return] of line 169 for a 200 response
    with a candidate text, and it holds no fence marker and no white space
    at either end.  No error string is ever executed. *)
Theorem only_sanitized_completions_are_executed response site s execute q :
  generate_sql_query_at up exn_str response = Returns (site, s) ->
  In (ExecuteQuery q) (main_step s execute) ->
  q = s /\ execute = py "y" /\ site = QueryText
  /\ (exists text result sql_query,
        response = HttpResponse 200 text (Returns result)
        /\ candidate_text result = Returns (Some sql_query)
        /\ q = sanitize up sql_query)
  /\ contains fence q = false
  /\ starts_by is_space q = false /\ ends_by is_space q = false.
Proof.
  intros Hgen Hin. unfold main_step in Hin.
  destruct (is_error_result s) eqn:Herr.
  { destruct Hin as [Hin|[]]. discriminate Hin. }
  destruct Hin as [Hin|Hin]; [discriminate Hin|].
  unfold eq_str in Hin.
  destruct (bool_decide (execute = py "y")) eqn:Hy; [|by destruct Hin].
  apply bool_decide_eq_true in Hy.
  destruct Hin as [[= <-]|[]].
  destruct (generate_sql_query_cases up exn_str response)
    as [(st & text & body & -> & Hne & Hr)
       |[Hr|[(text & result & sql_query & -> & Hq & Hr)
       |[(e & _ & _ & Hr)|(e & _ & _ & Hr)]]]];
    rewrite Hr in Hgen; injection Hgen as <- <-;
    try (rewrite ?is_error_result_api, ?is_error_result_none,
           ?is_error_result_network, ?is_error_result_unknown in Herr;
         discriminate Herr).
  split; [done|]. split; [done|]. split; [done|]. split.
  { by exists text, result, sql_query. }
  split; [apply sanitize_no_fence|apply sanitize_trimmed].
Qed.
End CompletionMore.

Lemma first_candidate_text_is_used_witness :
  generate_sql_query_at latin1_to_upper exn_origin
    (HttpResponse 200 []
       (Returns (JObj
          [ (py "candidates",
             JArr [ JObj [ (py "content",
                            JObj [ (py "parts",
                                    JArr [JObj [(py "text",
                                                 JStr (py " SELECT 1; "))]]);
                                   (py "role", JStr (py "model")) ]);
                           (py "finishReason", JStr (py "STOP")) ] ]) ])))
  = Returns (QueryText, sanitize latin1_to_upper (strip (py " SELECT 1; "))).
Proof.
  eapply (first_candidate_text_is_used latin1_to_upper exn_origin);
    reflexivity.
Defined.

Lemma only_sanitized_completions_are_executed_witness :
  py "SELECT 1" = py "SELECT 1" /\ py "y" = py "y" /\ QueryText = QueryText
  /\ (exists text result sql_query,
        HttpResponse 200 []
          (Returns (JObj
             [ (py "candidates",
                JArr [ JObj [ (py "content",
                  JObj [ (py "parts",
                          JArr [JObj [(py "text", JStr (py "SELECT 1;"))]]) ]) ] ]) ]))
        = HttpResponse 200 text (Returns result)
        /\ candidate_text result = Returns (Some sql_query)
        /\ py "SELECT 1" = sanitize latin1_to_upper sql_query)
  /\ contains fence (py "SELECT 1") = false
  /\ starts_by is_space (py "SELECT 1") = false
  /\ ends_by is_space (py "SELECT 1") = false.
Proof.
  apply (only_sanitized_completions_are_executed latin1_to_upper exn_origin
           _ QueryText (py "SELECT 1") (py "y") (py "SELECT 1")).
  - reflexivity.
  - right. left. reflexivity.
Defined.

(** *** The database calls *)

Lemma unpack6_bad column :
  length column <> 6%nat -> unpack6 column = Raises (Exn ValueError (py "unpack")).
Proof.
  destruct column as [|a [|b [|c [|d [|e [|f [|g column]]]]]]]; simpl; done.
Qed.

Lemma describe_columns_bad columns :
  Exists (fun column : list cell => length column <> 6%nat) columns ->
  forall schema,
    describe_columns columns schema = Raises (Exn ValueError (py "unpack")).
Proof.
  induction 1 as [column rest Hbad|column rest Hex IH]; intros schema.
  - cbn [describe_columns]. by rewrite unpack6_bad.
  - cbn [describe_columns].
    destruct (unpack6 column) as [[[[[[a b] c] d] e] f]|err] eqn:E.
    + cbn [bind]. apply IH.
    + destruct column as [|a [|b [|c [|d [|e [|f [|g column]]]]]]];
        simpl in E; by inversion E.
Qed.

Section DatabaseMore.
Variable exn_str : exn -> str.

(** (X13) With connecting, the statement and [fetchall] failing only with
    database errors, [execute_query] ends in one of three ways: it returns
    the column names and rows of the result set, with everything closed
    again; it returns the error message; or, when the statement succeeded
    without a result set and [fetchall] returned rows, the iteration over
    [cursor.description] of line 186 raises [TypeError], which is not
    caught and leaves the connection and the cursor open. *)
Theorem execute_query_outcomes srv sql_query st :
  (forall e, srv_connect srv = Some e -> is_DatabaseError e = true) ->
  (forall e, srv_execute srv sql_query = Raises e ->
             is_DatabaseError e = true) ->
  (forall e, srv_execute srv sql_query = Returns (NoResultSet (Raises e)) ->
             is_DatabaseError e = true) ->
  (exists rs,
     srv_execute srv sql_query = Returns (ResultSetOf rs)
     /\ execute_query exn_str srv sql_query st
        = (Returns (QueryOk (rs_description rs) (rs_rows rs)), st))
  \/ (exists e st',
        is_DatabaseError e = true
        /\ execute_query exn_str srv sql_query st
           = (Returns (QueryFailed (py "Error executing query: " ++ exn_str e)),
              st'))
  \/ (exists rows,
        srv_execute srv sql_query = Returns (NoResultSet (Returns rows))
        /\ execute_query exn_str srv sql_query st
           = (Raises (Exn TypeError (py "iter")),
              Resources (S (open_connections st)) (S (open_cursors st)))).
Proof.
  intros Hconn Hexec Hfetch.
  unfold execute_query, try_exceptM, execute_query_try, bindM, connect,
    cursor, execute, lift.
  destruct (srv_connect srv) as [e|] eqn:Ec.
  { right. left. exists e, st. by rewrite (Hconn e eq_refl). }
  destruct (srv_execute srv sql_query) as [[rs|[rows|e]]|e] eqn:Ee.
  - left. exists rs. split; [done|]. simpl. by destruct st.
  - right. right. exists rows. by split.
  - right. left. eexists e, _. simpl. unfold lift.
    by rewrite (Hfetch e eq_refl).
  - right. left. eexists e, _. by rewrite (Hexec e eq_refl).
Qed.

(** (X17) When connecting fails with a database error, both calls return
    their error message and open nothing. *)
Theorem connect_failure_opens_nothing srv sql_query st e :
  srv_connect srv = Some e -> is_DatabaseError e = true ->
  execute_query exn_str srv sql_query st
  = (Returns (QueryFailed (py "Error executing query: " ++ exn_str e)), st)
  /\ get_database_schema exn_str srv st
     = (Returns (py "Error getting schema: " ++ exn_str e), st).
Proof.
  intros Hc Hdb.
  unfold execute_query, get_database_schema, try_exceptM, execute_query_try,
    get_database_schema_try, bindM, connect.
  rewrite Hc, Hdb. done.
Qed.

(** (X18) An exception that is not a database error is not caught: when a
    row that DESCRIBE returns for the first table does not have six fields,
    the unpacking of line 94 raises [ValueError], which leaves
    [get_database_schema] with the connection and the cursor still open. *)
Theorem get_database_schema_raises_on_short_row
    srv st tables name more_tables columns :
  srv_connect srv = None ->
  srv_execute srv (py "SHOW TABLES") = Returns (ResultSetOf tables) ->
  rs_rows tables = [name] :: more_tables ->
  srv_execute srv (py "DESCRIBE " ++ cell_str name)
  = Returns (ResultSetOf columns) ->
  Exists (fun column : list cell => length column <> 6%nat) (rs_rows columns) ->
  get_database_schema exn_str srv st
  = (Raises (Exn ValueError (py "unpack")),
     Resources (S (open_connections st)) (S (open_cursors st))).
Proof.
  intros Hc Ht Hrows Hd Hbad.
  unfold get_database_schema, try_exceptM, get_database_schema_try, bindM,
    connect, cursor, execute, lift.
  rewrite Hc, Ht. cbn [fetchall retM]. rewrite Hrows.
  cbn [describe_tables]. unfold bindM, lift, execute. cbn [unpack1].
  rewrite Hd. unfold lift. cbn [fetchall retM].
  by rewrite (describe_columns_bad _ Hbad).
Qed.
End DatabaseMore.

Lemma execute_query_outcomes_witness :
  (exists rs,
     srv_execute small_server (py "DELETE FROM t") = Returns (ResultSetOf rs)
     /\ execute_query exn_origin small_server (py "DELETE FROM t") idle
        = (Returns (QueryOk (rs_description rs) (rs_rows rs)), idle))
  \/ (exists e st',
        is_DatabaseError e = true
        /\ execute_query exn_origin small_server (py "DELETE FROM t") idle
           = (Returns (QueryFailed (py "Error executing query: " ++ exn_origin e)),
              st'))
  \/ (exists rows,
        srv_execute small_server (py "DELETE FROM t")
        = Returns (NoResultSet (Returns rows))
        /\ execute_query exn_origin small_server (py "DELETE FROM t") idle
           = (Raises (Exn TypeError (py "iter")), Resources 1 1)).
Proof.
  apply (execute_query_outcomes exn_origin small_server (py "DELETE FROM t") idle).
  - intros e H. discriminate H.
  - intros e H. discriminate H.
  - intros e H. discriminate H.
Defined.

Lemma connect_failure_opens_nothing_witness :
  execute_query exn_origin
    (Server (Some (Exn DatabaseError (py "connect"))) (srv_execute small_server))
    (py "SELECT 1") idle
  = (Returns (QueryFailed (py "Error executing query: " ++ py "connect")), idle)
  /\ get_database_schema exn_origin
       (Server (Some (Exn DatabaseError (py "connect")))
               (srv_execute small_server)) idle
     = (Returns (py "Error getting schema: " ++ py "connect"), idle).
Proof.
  apply (connect_failure_opens_nothing exn_origin
           (Server (Some (Exn DatabaseError (py "connect")))
                   (srv_execute small_server))
           (py "SELECT 1") idle (Exn DatabaseError (py "connect")));
    reflexivity.
Defined.

Lemma get_database_schema_raises_on_short_row_witness :
  get_database_schema exn_origin
    (Server None (fun statement =>
       if eq_str statement (py "SHOW TABLES")
       then Returns (ResultSetOf
              (ResultSet [py "Tables_in_db"] [[CStr (py "t")]]))
       else Returns (ResultSetOf
              (ResultSet [py "Field"; py "Type"]
                 [[CStr (py "id"); CStr (py "int")]]))))
    idle
  = (Raises (Exn ValueError (py "unpack")), Resources 1 1).
Proof.
  eapply (get_database_schema_raises_on_short_row exn_origin);
    [reflexivity|reflexivity|reflexivity|reflexivity|].
  apply Exists_cons_hd. discriminate.
Defined.

Lemma execute_query_releases_on_success_witness :
  execute_query exn_origin small_server (py "SELECT id FROM t") idle
  = (Returns (QueryOk [py "id"] [[CInt 1]; [CInt 22]]), idle)
  /\ idle = idle.
Proof.
  split; [reflexivity|].
  eapply (execute_query_releases_on_success exn_origin small_server
            (py "SELECT id FROM t")).
  reflexivity.
Defined.

Lemma get_database_schema_releases_on_success_witness :
  fst (get_database_schema_try small_server idle)
  = Returns ([10] ++ py "Table: t" ++ [10] ++ py "  - id (int) PRIMARY KEY")
  /\ snd (get_database_schema_try small_server idle) = idle.
Proof.
  split; [reflexivity|].
  eapply (get_database_schema_releases_on_success small_server idle).
  reflexivity.
Defined.

Lemma execute_query_holds_on_error_witness :
  execute_query exn_origin rejecting_server (py "hello") idle
  = (Returns (QueryFailed (py "Error executing query: " ++ py "execute")),
     Resources 1 1).
Proof.
  apply (execute_query_holds_on_error exn_origin rejecting_server
           (py "hello") (Exn DatabaseError (py "execute")) idle);
    reflexivity.
Defined.

(** *** The result formatter *)

Lemma ljust_length w (s : str) :
  (length s <= w)%nat -> length (ljust w s) = w.
Proof. intros H. unfold ljust. rewrite length_app, repeat_length. lia. Qed.

Lemma join_length sep parts :
  length (join sep parts)
  = (list_sum (map (fun p : str => length p) parts)
     + length sep * (length parts - 1))%nat.
Proof.
  induction parts as [|p rest IH]; [simpl; lia|].
  destruct rest as [|q rest].
  - simpl. lia.
  - change (join sep (p :: q :: rest)) with (p ++ sep ++ join sep (q :: rest)).
    rewrite !length_app, IH. simpl. rewrite !Nat.sub_0_r. lia.
Qed.

Lemma joined_fields_length sep cells widths :
  length sep = 3%nat ->
  map (fun c : str => length c) cells = widths ->
  length (join sep cells) = table_width widths.
Proof.
  intros Hsep <-. rewrite join_length, Hsep. unfold table_width.
  by rewrite length_map.
Qed.

Lemma separator_lengths widths :
  map (fun c : str => length c) (map (fun width => repeat 45 width) widths)
  = widths.
Proof.
  induction widths as [|w rest IH]; simpl; [done|].
  by rewrite repeat_length, IH.
Qed.

Lemma ljust_each_lengths {A} (to_str : A -> str) widths items :
  forall i,
    (forall k x, items !! k = Some x ->
       exists w, widths !! (i + k)%nat = Some w
                 /\ (length (to_str x) <= w)%nat) ->
    exists cells,
      ljust_each to_str widths i items = Returns cells
      /\ map (fun c : str => length c) cells
         = take (length items) (drop i widths).
Proof.
  induction items as [|x rest IH]; intros i H.
  - exists []. by rewrite take_0.
  - destruct (H 0%nat x eq_refl) as (w & Hw & Hle).
    rewrite Nat.add_0_r in Hw.
    destruct (IH (S i)) as (cells & Hc & Hl).
    { intros k y Hk. destruct (H (S k) y Hk) as (w' & Hw' & Hle').
      exists w'. split; [|done]. by replace (S i + k)%nat with (i + S k)%nat by lia. }
    cbn [ljust_each]. rewrite Hw, Hc. cbn [bind].
    eexists. split; [done|]. cbn [map length].
    rewrite ljust_length by done. rewrite Hl, (drop_S _ _ _ Hw). done.
Qed.

Section FormatterMore.
Context {cell : Type}.
Variable py_str : cell -> str.

Lemma format_rows_lengths widths results :
  Forall (fun row : list cell =>
            length row = length widths
            /\ forall k val, row !! k = Some val ->
                 exists w, widths !! k = Some w
                           /\ (length (py_str val) <= w)%nat) results ->
  exists rows,
    format_rows py_str widths results = Returns rows
    /\ Forall (fun line : str => length line = table_width widths) rows.
Proof.
  induction 1 as [|row rest [Hlen Hcells] Hrest (rows & Hrows & Hall)].
  - by exists [].
  - destruct (ljust_each_lengths py_str widths row 0 Hcells)
      as (cells & Hc & Hl).
    cbn [format_rows]. rewrite Hc. cbn [bind]. rewrite Hrows. cbn [bind].
    eexists. split; [done|]. constructor; [|done].
    apply joined_fields_length; [done|].
    rewrite Hl, Hlen, drop_0. by apply take_ge.
Qed.

(** (X19) For rows that all have one cell per column name, the table is
    aligned: the header line, the separator line and every row line have
    the same length, the sum of the column widths plus three characters
    between neighbouring columns. *)
Theorem format_results_is_aligned column_names results :
  results <> [] ->
  rectangular column_names results ->
  exists widths names rows,
    compute_widths py_str column_names results = Returns widths
    /\ format_results py_str column_names results
       = Returns ([10] ++ join (py " | ") names ++ [10]
                  ++ join (py "-+-") (map (fun width => repeat 45 width) widths)
                  ++ [10] ++ join [10] rows)
    /\ length rows = length results
    /\ length (join (py " | ") names) = table_width widths
    /\ length (join (py "-+-") (map (fun width => repeat 45 width) widths))
       = table_width widths
    /\ Forall (fun line : str => length line = table_width widths) rows.
Proof.
  intros Hne Hrect.
  destruct results as [|row0 rest0]; [done|].
  set (results := row0 :: rest0) in *.
  set (widths0 := map (fun name : str => length name) column_names).
  assert (length widths0 = length column_names) as Hlen0 by apply length_map.
  destruct (widen_rows_lookup py_str results widths0)
    as (widths & Hrun & Hlen & Hlook).
  { eapply Forall_impl; [exact Hrect|]. intros row Hrow. simpl in Hrow.
    rewrite Hlen0. lia. }
  change (widen_rows py_str widths0 results)
    with (compute_widths py_str column_names results) in Hrun.
  assert (forall j name, column_names !! j = Some name ->
            exists w, widths !! j = Some w
                      /\ (length name <= w)%nat
                      /\ forall row val, In row results ->
                           row !! j = Some val ->
                           (length (py_str val) <= w)%nat) as Hwide.
  { intros j name Hj.
    assert (widths0 !! j = Some (length name)) as Hw0.
    { by apply lookup_map_length. }
    destruct (foldl_widen_is_max py_str results j (length name))
      as (H1 & H2 & _). cbn zeta in *.
    eexists. rewrite Hlook, Hw0. split; [reflexivity|]. split; done. }
  destruct (ljust_each_lengths (fun name : str => name) widths column_names 0)
    as (names & Hnames & Hnl).
  { intros k name Hk. destruct (Hwide k name Hk) as (w & Hw & Hle & _). eauto. }
  destruct (format_rows_lengths widths results) as (rows & Hrows & Hall).
  { apply Forall_forall. intros row Hrow.
    pose proof (proj1 (Forall_forall _ _) Hrect row Hrow) as Hr. simpl in Hr.
    split; [congruence|]. intros k val Hk.
    destruct (lookup_lt_is_Some_2 column_names k) as [name Hname].
    { apply lookup_lt_Some in Hk. lia. }
    destruct (Hwide k name Hname) as (w & Hw & _ & Hcells).
    exists w. split; [done|]. apply (Hcells row); [|done].
    by apply list_elem_of_In. }
  exists widths, names, rows. split; [done|]. split.
  { unfold format_results. fold results.
    rewrite Hrun. cbn [bind]. rewrite Hnames. cbn [bind].
    rewrite Hrows. reflexivity. }
  split.
  { clear -Hrows. revert rows Hrows.
    induction results as [|row rest IH]; intros rows Hrows.
    - by injection Hrows as <-.
    - cbn [format_rows] in Hrows.
      destruct (ljust_each py_str widths 0 row); [|done].
      destruct (format_rows py_str widths rest) as [rows'|]; [|done].
      injection Hrows as <-. simpl. f_equal. by apply IH. }
  split.
  { apply joined_fields_length; [done|].
    rewrite Hnl, drop_0. apply take_ge. lia. }
  split; [|done].
  apply joined_fields_length; [done|apply separator_lengths].
Qed.
End FormatterMore.

Lemma format_results_is_aligned_witness :
  exists widths names rows,
    compute_widths cell_str [py "id"; py "name"]
      [[CInt 1; CStr (py "Al")]; [CInt 22; CStr (py "Bob")]] = Returns widths
    /\ format_results cell_str [py "id"; py "name"]
         [[CInt 1; CStr (py "Al")]; [CInt 22; CStr (py "Bob")]]
       = Returns ([10] ++ join (py " | ") names ++ [10]
                  ++ join (py "-+-") (map (fun width => repeat 45 width) widths)
                  ++ [10] ++ join [10] rows)
    /\ length rows = 2%nat
    /\ length (join (py " | ") names) = table_width widths
    /\ length (join (py "-+-") (map (fun width => repeat 45 width) widths))
       = table_width widths
    /\ Forall (fun line : str => length line = table_width widths) rows.
Proof.
  apply (format_results_is_aligned cell_str [py "id"; py "name"]
           [[CInt 1; CStr (py "Al")]; [CInt 22; CStr (py "Bob")]]).
  - discriminate.
  - repeat constructor.
Defined.

(** *** Construction of the converter *)

Section InitFacts.
Variable exn_str : exn -> str.

(** (X20) Without an API key, or with an empty one, the construction raises
    [ValueError] at once: whatever the catalog and the server, nothing has
    been opened. *)
Theorem init_requires_api_key env catalog srv st :
  env (py "GEMINI_API_KEY") = None \/ env (py "GEMINI_API_KEY") = Some [] ->
  init exn_str env catalog srv st
  = (Raises (Exn ValueError missing_key_message), st).
Proof. unfold init. by intros [-> | ->]. Qed.

(** (X21) With an API key, neither the catalog nor a database that cannot
    be reached stops the construction: whatever the catalog request meets,
    when connecting fails with a database error the converter is built, with
    the model the selector returns in its URL, the error message as its
    schema, and nothing left open. *)
Theorem init_survives_outage env key catalog srv st e :
  env (py "GEMINI_API_KEY") = Some key -> key <> [] ->
  srv_connect srv = Some e -> is_DatabaseError e = true ->
  exists c,
    init exn_str env catalog srv st = (Returns c, st)
    /\ get_available_model catalog = Returns (model_name c)
    /\ api_key c = key
    /\ api_url c
       = models_url ++ model_name c ++ py ":generateContent?key=" ++ key
    /\ schema_info c = py "Error getting schema: " ++ exn_str e.
Proof.
  intros Hkey Hne Hc Hdb. unfold init. rewrite Hkey.
  destruct key as [|k key]; [done|].
  destruct (get_available_model catalog) as [model|e'] eqn:Hm.
  - unfold bindM, lift, get_database_schema, try_exceptM,
      get_database_schema_try, bindM, connect.
    rewrite Hc, Hdb. eexists. split; [reflexivity|]. done.
  - exfalso. unfold get_available_model in Hm.
    destruct (get_available_model_try catalog) as [[m|]|e'']; discriminate Hm.
Qed.
End InitFacts.

Lemma init_requires_api_key_witness :
  init exn_origin (fun name => if eq_str name (py "GEMINI_API_KEY")
                               then Some [] else None)
       (HttpRaised (Exn RequestException [])) small_server idle
  = (Raises (Exn ValueError missing_key_message), idle).
Proof. apply init_requires_api_key. right. reflexivity. Defined.

Lemma init_survives_outage_witness :
  exists c,
    init exn_origin (fun name => if eq_str name (py "GEMINI_API_KEY")
                                 then Some (py "k") else None)
         (HttpRaised (Exn RequestException []))
         (Server (Some (Exn DatabaseError (py "connect")))
                 (srv_execute small_server)) idle
    = (Returns c, idle)
    /\ get_available_model (HttpRaised (Exn RequestException []))
       = Returns (model_name c)
    /\ api_key c = py "k"
    /\ api_url c
       = models_url ++ model_name c ++ py ":generateContent?key=" ++ py "k"
    /\ schema_info c = py "Error getting schema: " ++ py "connect".
Proof.
  apply (init_survives_outage exn_origin _ (py "k") _ _ idle
           (Exn DatabaseError (py "connect")));
    [reflexivity|discriminate|reflexivity|reflexivity].
Defined.

(** *** From the query to the table *)

(** (X22) What [execute_query] returns can be handed to [format_results],
    as [main] does: when the result set of the statement has one cell per
    column in every row, formatting the column names and rows returned
    raises nothing. *)
Theorem query_results_can_be_formatted
    exn_str srv sql_query st column_names results st' :
  execute_query exn_str srv sql_query st
  = (Returns (QueryOk column_names results), st') ->
  (forall rs, srv_execute srv sql_query = Returns (ResultSetOf rs) ->
              rectangular (rs_description rs) (rs_rows rs)) ->
  exists out, format_results cell_str column_names results = Returns out.
Proof.
  intros Hrun Hshape.
  assert (rectangular column_names results) as Hrect.
  { revert Hrun.
    unfold execute_query, try_exceptM, execute_query_try, bindM, connect,
      cursor, execute, lift.
    destruct (srv_connect srv) as [e|].
    { destruct (is_DatabaseError e); [|done]. unfold retM. by intros [=]. }
    destruct (srv_execute srv sql_query) as [[rs|[rows|e]]|e] eqn:E;
      cbn [fetchall description retM cursor_close conn_close].
    - simpl. intros [= <- <- _]. by apply Hshape.
    - simpl. by intros [=].
    - unfold lift. destruct (is_DatabaseError e); [|done]. unfold retM.
      by intros [=].
    - destruct (is_DatabaseError e); [|done]. unfold retM. by intros [=]. }
  destruct results as [|row rest]; [by eexists|].
  set (results := row :: rest) in *.
  set (widths0 := map (fun name : str => length name) column_names).
  assert (length widths0 = length column_names) as Hlen0 by apply length_map.
  assert (Forall (fun r : list cell => (length r <= length widths0)%nat)
                 results) as Hle.
  { eapply Forall_impl; [exact Hrect|]. intros r Hr. simpl in Hr. lia. }
  destruct (widen_rows_lookup cell_str results widths0 Hle)
    as (widths & Hw & Hlen & _).
  change (widen_rows cell_str widths0 results)
    with (compute_widths cell_str column_names results) in Hw.
  destruct (ljust_each_ok (fun name : str => name) widths column_names 0)
    as [names Hnames]; [lia|].
  destruct (format_rows_ok cell_str widths results) as [rows Hrows].
  { by rewrite Hlen. }
  unfold format_results. fold results.
  rewrite Hw. cbn [bind]. rewrite Hnames. cbn [bind]. rewrite Hrows.
  cbn [bind]. eauto.
Qed.

Lemma query_results_can_be_formatted_witness :
  exists out,
    format_results cell_str [py "id"] [[CInt 1]; [CInt 22]] = Returns out.
Proof.
  apply (query_results_can_be_formatted exn_origin small_server
           (py "SELECT id FROM t") idle [py "id"] [[CInt 1]; [CInt 22]] idle).
  - reflexivity.
  - intros rs [= <-]. repeat constructor.
Defined.
